(** * Frameless PyQt5 window with a custom title bar

    A shallow embedding of [custom-pyqt5-titlebar.py]: the edge hit test
    and the resize arithmetic of [MainWindow], the drag and the window
    control buttons of [CustomTitleBar], and the signal connections made
    at construction.

    Python integers are unbounded and are modelled by [Z].  A resize
    direction is the [Optional[str]] of the source, an [option string].
    The window owned by the toolkit is a record holding what the program
    reads back ([geometry], the window-state flags, the minimum size, the
    cursor) together with the list of toolkit calls issued so far. *)

From Stdlib Require Import ZArith List String Bool Lia.
Import ListNotations.
Open Scope string_scope.
Open Scope Z_scope.

(** ** Points and rectangles *)

Record QPoint : Type := mkQPoint { px : Z; py : Z }.

(** [QPoint.__sub__]. *)
Definition QPoint_sub (a b : QPoint) : QPoint :=
  mkQPoint (px a - px b) (py a - py b).

(** A [QRect] keeps its two corners; the width counts both end columns. *)
Record QRect : Type := mkQRect { x1 : Z; y1 : Z; x2 : Z; y2 : Z }.

Module QRect.
Definition left (r : QRect) : Z := x1 r.
Definition top (r : QRect) : Z := y1 r.
Definition right (r : QRect) : Z := x2 r.
Definition bottom (r : QRect) : Z := y2 r.
Definition width (r : QRect) : Z := x2 r - x1 r + 1.
Definition height (r : QRect) : Z := y2 r - y1 r + 1.
Definition setLeft (l : Z) (r : QRect) : QRect :=
  mkQRect l (y1 r) (x2 r) (y2 r).
Definition setTop (t : Z) (r : QRect) : QRect :=
  mkQRect (x1 r) t (x2 r) (y2 r).
Definition setWidth (w : Z) (r : QRect) : QRect :=
  mkQRect (x1 r) (y1 r) (x1 r + w - 1) (y2 r).
Definition setHeight (h : Z) (r : QRect) : QRect :=
  mkQRect (x1 r) (y1 r) (x2 r) (y1 r + h - 1).
(** The rectangle at [(x, y)] of the given size. *)
Definition make (x y w h : Z) : QRect :=
  mkQRect x y (x + w - 1) (y + h - 1).
Definition moveTo (x y : Z) (r : QRect) : QRect :=
  make x y (width r) (height r).
(** [QRect.__eq__]. *)
Definition eqb (a b : QRect) : bool :=
  (x1 a =? x1 b) && (y1 a =? y1 b) && (x2 a =? x2 b) && (y2 a =? y2 b).
End QRect.

(** ** Strings as Python uses them here *)

(** [needle in hay] on [str]: substring containment. *)
Fixpoint str_in (needle hay : string) : bool :=
  prefix needle hay ||
  match hay with
  | EmptyString => false
  | String _ rest => str_in needle rest
  end.

(** Truth value of an [Optional[str]]: [None] and [""] are false. *)
Definition truthy (d : option string) : bool :=
  match d with
  | None => false
  | Some s => negb (s =? "")%string
  end.

(** [d in [a, b]] for an [Optional[str]] and two string literals. *)
Definition in_pair (d : option string) (a b : string) : bool :=
  match d with
  | None => false
  | Some s => (s =? a)%string || (s =? b)%string
  end.

(** ** Edge hit test *)

Section HitTest.
(** [W] and [H] are [rect.width()] and [rect.height()], [M] is
    [self._edge_margin]. *)
Variables W H M : Z.

Definition near_left (pos : QPoint) : bool := px pos <=? M.
Definition near_right (pos : QPoint) : bool := px pos >=? W - M.
Definition near_top (pos : QPoint) : bool := py pos <=? M.
Definition near_bottom (pos : QPoint) : bool := py pos >=? H - M.

Definition _get_resize_direction (pos : QPoint) : option string :=
  if near_left pos && near_top pos then Some "top-left"
  else if near_left pos && near_bottom pos then Some "bottom-left"
  else if near_right pos && near_top pos then Some "top-right"
  else if near_right pos && near_bottom pos then Some "bottom-right"
  else if near_left pos then Some "left"
  else if near_right pos then Some "right"
  else if near_top pos then Some "top"
  else if near_bottom pos then Some "bottom"
  else None.
End HitTest.

(** The nine outcomes of the hit test. *)
Definition outcomes : list (option string) :=
  [ Some "top-left"; Some "bottom-left"; Some "top-right";
    Some "bottom-right"; Some "left"; Some "right"; Some "top";
    Some "bottom"; None ].

(** The eight directions a resize session can carry. *)
Definition directions : list string :=
  [ "top-left"; "bottom-left"; "top-right"; "bottom-right";
    "left"; "right"; "top"; "bottom" ].

(** ** The toolkit's window

    [QWidget] is the part of the top-level window that the toolkit owns,
    as the program sees it while one of its handlers runs.

    The three state flags follow Qt's window states: [showMaximized]
    clears the minimized and full-screen flags and sets the maximized
    one, [showFullScreen] clears minimized and maximized and sets
    full-screen, [showNormal] clears all three.  These calls only ask
    for the state: the geometry the window system then gives the window
    reaches the program after the handler has returned, and is outside
    the model; no theorem below depends on what the geometry is after
    such a call.

    [setGeometry] keeps the requested top-left corner, bounds the size
    below by the minimum size and, when the geometry changes, clears the
    maximized and the full-screen flag.  The program calls [move] only
    on a window it has just restored.  Every call is appended to
    [calls], oldest first, with the arguments the program passed. *)

Inductive CursorShape : Type :=
| ArrowCursor | SizeHorCursor | SizeVerCursor
| SizeFDiagCursor | SizeBDiagCursor.

Inductive MouseButton : Type :=
| NoButton | LeftButton | RightButton | MidButton | XButton1 | XButton2.

Record QMouseEvent : Type :=
  mkQMouseEvent { button : MouseButton; pos : QPoint; globalPos : QPoint }.

Inductive Call : Type :=
| CallShowNormal
| CallShowMaximized
| CallShowFullScreen
| CallShowMinimized
| CallClose
| CallMove (x y : Z)
| CallSetGeometry (r : QRect)
| CallSetCursor (c : CursorShape).

Record QWidget : Type := mkQWidget {
  geometry : QRect;
  minimumWidth : Z;
  minimumHeight : Z;
  minimized : bool;
  maximized : bool;
  fullscreen : bool;
  visible : bool;
  cursor : CursorShape;
  calls : list Call
}.

Module Qt.
Definition isMaximized (q : QWidget) : bool := maximized q.
Definition isFullScreen (q : QWidget) : bool := fullscreen q.
Definition x (q : QWidget) : Z := QRect.left (geometry q).
Definition y (q : QWidget) : Z := QRect.top (geometry q).
Definition rect (q : QWidget) : QRect :=
  QRect.make 0 0 (QRect.width (geometry q)) (QRect.height (geometry q)).

Definition showNormal (q : QWidget) : QWidget :=
  mkQWidget (geometry q) (minimumWidth q) (minimumHeight q)
            false false false true (cursor q)
            (calls q ++ [CallShowNormal]).
Definition showMaximized (q : QWidget) : QWidget :=
  mkQWidget (geometry q) (minimumWidth q) (minimumHeight q)
            false true false true (cursor q)
            (calls q ++ [CallShowMaximized]).
Definition showFullScreen (q : QWidget) : QWidget :=
  mkQWidget (geometry q) (minimumWidth q) (minimumHeight q)
            false false true true (cursor q)
            (calls q ++ [CallShowFullScreen]).
Definition showMinimized (q : QWidget) : QWidget :=
  mkQWidget (geometry q) (minimumWidth q) (minimumHeight q)
            true (maximized q) (fullscreen q) true (cursor q)
            (calls q ++ [CallShowMinimized]).
Definition close (q : QWidget) : QWidget :=
  mkQWidget (geometry q) (minimumWidth q) (minimumHeight q)
            (minimized q) (maximized q) (fullscreen q) false (cursor q)
            (calls q ++ [CallClose]).
Definition move (nx ny : Z) (q : QWidget) : QWidget :=
  mkQWidget (QRect.moveTo nx ny (geometry q))
            (minimumWidth q) (minimumHeight q)
            (minimized q) (maximized q) (fullscreen q) (visible q)
            (cursor q) (calls q ++ [CallMove nx ny]).
(** The rectangle a window gets when [r] is asked for: the same top-left
    corner, the size not below the minimum size. *)
Definition constrained (q : QWidget) (r : QRect) : QRect :=
  QRect.make (QRect.left r) (QRect.top r)
             (Z.max (QRect.width r) (minimumWidth q))
             (Z.max (QRect.height r) (minimumHeight q)).
Definition setGeometry (r : QRect) (q : QWidget) : QWidget :=
  let changed := negb (QRect.eqb (constrained q r) (geometry q)) in
  mkQWidget (constrained q r) (minimumWidth q) (minimumHeight q)
            (minimized q)
            (if changed then false else maximized q)
            (if changed then false else fullscreen q)
            (visible q) (cursor q) (calls q ++ [CallSetGeometry r]).
Definition setCursor (c : CursorShape) (q : QWidget) : QWidget :=
  mkQWidget (geometry q) (minimumWidth q) (minimumHeight q)
            (minimized q) (maximized q) (fullscreen q) (visible q)
            c (calls q ++ [CallSetCursor c]).
End Qt.

(** ** The two objects of the program *)

(** The fields of [CustomTitleBar] that its handlers read or write: the
    press anchor and the icon file last given to the maximize and the
    full-screen button. *)
Record CustomTitleBar : Type := mkCustomTitleBar {
  start : option QPoint;
  maximizeButton_icon : string;
  fullScreenButton_icon : string
}.

(** [MainWindow]: its own four fields, the toolkit part it inherits and
    the title bar it owns ([self.parent()] of the title bar is this
    window). *)
Record MainWindow : Type := mkMainWindow {
  _drag_pos : option QPoint;
  _resizing : bool;
  _edge_margin : Z;
  _resize_direction : option string;
  base : QWidget;
  customTitleBar : CustomTitleBar
}.

Definition with_base (f : QWidget -> QWidget) (w : MainWindow) : MainWindow :=
  mkMainWindow (_drag_pos w) (_resizing w) (_edge_margin w)
               (_resize_direction w) (f (base w)) (customTitleBar w).

Definition with_titlebar (f : CustomTitleBar -> CustomTitleBar)
  (w : MainWindow) : MainWindow :=
  mkMainWindow (_drag_pos w) (_resizing w) (_edge_margin w)
               (_resize_direction w) (base w) (f (customTitleBar w)).

Definition set_start (s : option QPoint) (t : CustomTitleBar) : CustomTitleBar :=
  mkCustomTitleBar s (maximizeButton_icon t) (fullScreenButton_icon t).
Definition set_maximize_icon (i : string) (t : CustomTitleBar) : CustomTitleBar :=
  mkCustomTitleBar (start t) i (fullScreenButton_icon t).
Definition set_fullscreen_icon (i : string) (t : CustomTitleBar) : CustomTitleBar :=
  mkCustomTitleBar (start t) (maximizeButton_icon t) i.

Definition set_drag_pos (p : option QPoint) (w : MainWindow) : MainWindow :=
  mkMainWindow p (_resizing w) (_edge_margin w) (_resize_direction w)
               (base w) (customTitleBar w).
Definition set_resizing (b : bool) (w : MainWindow) : MainWindow :=
  mkMainWindow (_drag_pos w) b (_edge_margin w) (_resize_direction w)
               (base w) (customTitleBar w).
Definition set_resize_direction (d : option string) (w : MainWindow) : MainWindow :=
  mkMainWindow (_drag_pos w) (_resizing w) (_edge_margin w) d
               (base w) (customTitleBar w).

(** The icon files with which the buttons are created. *)
Definition maximize_icon_initial : string := "Images\maximize-button-icon-white.png".
Definition fullscreen_icon_initial : string := "Images\fullscreen-button-icon-white.png".

(** [CustomTitleBar.__init__]. *)
Definition CustomTitleBar_init : CustomTitleBar :=
  mkCustomTitleBar None maximize_icon_initial fullscreen_icon_initial.

(** [MainWindow.__init__]; [g] is the geometry the window system gives
    the new window, which [setMinimumSize(800, 600)] brings up to the
    minimum size where it is smaller. *)
Definition MainWindow_init (g : QRect) : MainWindow :=
  mkMainWindow None false 8 None
    (mkQWidget
       (QRect.make (QRect.left g) (QRect.top g)
                   (Z.max (QRect.width g) 800) (Z.max (QRect.height g) 600))
       800 600 false false false false ArrowCursor [])
    CustomTitleBar_init.

(** The maximize button shows its active (restore) variant. *)
Definition maximize_icon_active (w : MainWindow) : bool :=
  (maximizeButton_icon (customTitleBar w) =? "normal-button-icon-white.png")%string.

(** The full-screen button shows its active (leave full screen) variant. *)
Definition fullscreen_icon_active (w : MainWindow) : bool :=
  (fullScreenButton_icon (customTitleBar w) =? "end-fullscreen-button-icon-white.png")%string.

(** ** Outcome of a handler

    A handler either returns or raises; what it changed before raising
    stays changed, so both outcomes carry the window. *)

Inductive PyExn : Type := TypeError.

Inductive Result : Type :=
| Done (w : MainWindow)
| Raised (e : PyExn) (w : MainWindow).

Definition bind (r : Result) (k : MainWindow -> Result) : Result :=
  match r with
  | Done w => k w
  | Raised e w => Raised e w
  end.

Notation "r >>= k" := (bind r k) (at level 50, left associativity).

(** ** [CustomTitleBar] *)

(** [CustomTitleBar.mousePressEvent]. *)
Definition CustomTitleBar_mousePressEvent (event : QMouseEvent)
  (w : MainWindow) : MainWindow :=
  with_titlebar (set_start (Some (globalPos event))) w.

(** The body of the [if] of [CustomTitleBar.mouseMoveEvent]: restore the
    window and give both buttons their plain icon. *)
Definition restore_for_drag (w : MainWindow) : MainWindow :=
  with_titlebar (set_fullscreen_icon "fullscreen-button-icon-white.png")
    (with_titlebar (set_maximize_icon "maximize-button-icon-white.png")
       (with_base Qt.showNormal w)).

(** [CustomTitleBar.mouseMoveEvent].  [event.globalPos() - self.start]
    raises [TypeError] when [self.start] is [None]. *)
Definition CustomTitleBar_mouseMoveEvent (event : QMouseEvent)
  (w : MainWindow) : Result :=
  let w1 :=
    if Qt.isMaximized (base w) || Qt.isFullScreen (base w)
    then restore_for_drag w else w in
  match start (customTitleBar w1) with
  | None => Raised TypeError w1
  | Some anchor =>
      let delta := QPoint_sub (globalPos event) anchor in
      let w2 :=
        with_base (Qt.move (Qt.x (base w1) + px delta)
                           (Qt.y (base w1) + py delta)) w1 in
      Done (with_titlebar (set_start (Some (globalPos event))) w2)
  end.

(** [CustomTitleBar.closeParent]. *)
Definition closeParent (w : MainWindow) : MainWindow :=
  with_base Qt.close w.

(** [CustomTitleBar.showParentMinimized]. *)
Definition showParentMinimized (w : MainWindow) : MainWindow :=
  with_base Qt.showMinimized w.

(** [CustomTitleBar.showParentMaximized]. *)
Definition showParentMaximized (w : MainWindow) : MainWindow :=
  if Qt.isMaximized (base w) then
    with_base Qt.showNormal
      (with_titlebar (set_fullscreen_icon "fullscreen-button-icon-white.png")
         (with_titlebar (set_maximize_icon "maximize-button-icon-white.png") w))
  else
    with_base Qt.showMaximized
      (with_titlebar (set_maximize_icon "normal-button-icon-white.png") w).

(** [CustomTitleBar.showParentFullScreen]. *)
Definition showParentFullScreen (w : MainWindow) : MainWindow :=
  if Qt.isFullScreen (base w) then
    with_base Qt.showNormal
      (with_titlebar (set_maximize_icon "maximize-button-icon-white.png")
         (with_titlebar (set_fullscreen_icon "fullscreen-button-icon-white.png") w))
  else
    with_base Qt.showFullScreen
      (with_titlebar (set_fullscreen_icon "end-fullscreen-button-icon-white.png") w).

(** ** Signals and slots

    The signals the title bar creates and the bound methods it connects
    to them; [_setup_buttons] and [_setup_menubar] each add their
    connections to the table in the order of the source. *)

Inductive Signal : Type :=
| closeButton_clicked
| maximizeButton_clicked
| minimizeButton_clicked
| fullScreenButton_clicked
| action_new_triggered
| action_quit_triggered
| action_about_triggered.

Inductive Slot : Type :=
| slot_closeParent
| slot_showParentMaximized
| slot_showParentMinimized
| slot_showParentFullScreen.

Definition Signal_eqb (a b : Signal) : bool :=
  match a, b with
  | closeButton_clicked, closeButton_clicked
  | maximizeButton_clicked, maximizeButton_clicked
  | minimizeButton_clicked, minimizeButton_clicked
  | fullScreenButton_clicked, fullScreenButton_clicked
  | action_new_triggered, action_new_triggered
  | action_quit_triggered, action_quit_triggered
  | action_about_triggered, action_about_triggered => true
  | _, _ => false
  end.

Definition Connections : Type := list (Signal * Slot).

(** [signal.connect(slot)]. *)
Definition connect (s : Signal) (f : Slot) (c : Connections) : Connections :=
  (c ++ [(s, f)])%list.

Definition _setup_buttons (c : Connections) : Connections :=
  connect fullScreenButton_clicked slot_showParentFullScreen
    (connect minimizeButton_clicked slot_showParentMinimized
       (connect maximizeButton_clicked slot_showParentMaximized
          (connect closeButton_clicked slot_closeParent c))).

Definition _setup_menubar (c : Connections) : Connections :=
  connect action_quit_triggered slot_closeParent c.

(** The connections after [CustomTitleBar.__init__]. *)
Definition connections : Connections :=
  _setup_menubar (_setup_buttons []).

(** The method a slot is bound to. *)
Definition call_slot (f : Slot) : MainWindow -> MainWindow :=
  match f with
  | slot_closeParent => closeParent
  | slot_showParentMaximized => showParentMaximized
  | slot_showParentMinimized => showParentMinimized
  | slot_showParentFullScreen => showParentFullScreen
  end.

(** The slots connected to a signal, in connection order. *)
Definition slots_of (s : Signal) (c : Connections) : list Slot :=
  map snd (filter (fun e => Signal_eqb (fst e) s) c).

Definition call_slots (fs : list Slot) (w : MainWindow) : MainWindow :=
  fold_left (fun acc f => call_slot f acc) fs w.

(** Emitting a signal calls its slots in order. *)
Definition emit (s : Signal) : MainWindow -> MainWindow :=
  call_slots (slots_of s connections).

(** ** [MainWindow] *)

Definition hit_test (w : MainWindow) (pos : QPoint) : option string :=
  _get_resize_direction (QRect.width (Qt.rect (base w)))
                        (QRect.height (Qt.rect (base w)))
                        (_edge_margin w) pos.

(** [MainWindow.mousePressEvent]. *)
Definition MainWindow_mousePressEvent (event : QMouseEvent)
  (w : MainWindow) : MainWindow :=
  match button event with
  | LeftButton =>
      let w1 := set_drag_pos (Some (globalPos event)) w in
      let w2 := set_resize_direction (hit_test w1 (pos event)) w1 in
      if truthy (_resize_direction w2) then set_resizing true w2 else w2
  | _ => w
  end.

(** Lines 361 to 368 of [_perform_resize]: the rectangle handed to
    [setGeometry], from the direction, the move since the anchor, the
    current geometry and the minimum size. *)
Definition _perform_resize_rect (d : string) (delta : QPoint)
  (minw minh : Z) (rect : QRect) : QRect :=
  let rect :=
    if str_in "right" d
    then QRect.setWidth (Z.max (QRect.width rect + px delta) minw) rect
    else rect in
  let rect :=
    if str_in "left" d
    then QRect.setLeft (QRect.left rect + px delta) rect
    else rect in
  let rect :=
    if str_in "bottom" d
    then QRect.setHeight (Z.max (QRect.height rect + py delta) minh) rect
    else rect in
  let rect :=
    if str_in "top" d
    then QRect.setTop (QRect.top rect + py delta) rect
    else rect in
  rect.

(** [MainWindow._perform_resize].  Subtracting [None] and testing
    [in] on [None] both raise [TypeError], before anything is changed. *)
Definition _perform_resize (global_pos : QPoint) (w : MainWindow) : Result :=
  match _drag_pos w with
  | None => Raised TypeError w
  | Some anchor =>
      let delta := QPoint_sub global_pos anchor in
      match _resize_direction w with
      | None => Raised TypeError w
      | Some d =>
          let rect :=
            _perform_resize_rect d delta (minimumWidth (base w))
              (minimumHeight (base w)) (geometry (base w)) in
          Done (set_drag_pos (Some global_pos)
                  (with_base (Qt.setGeometry rect) w))
      end
  end.

(** The cursor [_update_cursor] chooses for a direction. *)
Definition cursor_for (direction : option string) : CursorShape :=
  if in_pair direction "left" "right" then SizeHorCursor
  else if in_pair direction "top" "bottom" then SizeVerCursor
  else if in_pair direction "top-left" "bottom-right" then SizeFDiagCursor
  else if in_pair direction "top-right" "bottom-left" then SizeBDiagCursor
  else ArrowCursor.

(** [MainWindow._update_cursor]. *)
Definition _update_cursor (pos : QPoint) (w : MainWindow) : MainWindow :=
  with_base (Qt.setCursor (cursor_for (hit_test w pos))) w.

(** [MainWindow.mouseMoveEvent]. *)
Definition MainWindow_mouseMoveEvent (event : QMouseEvent)
  (w : MainWindow) : Result :=
  if _resizing w && truthy (_resize_direction w) then
    _perform_resize (globalPos event) w >>=
      (fun w1 => Done (_update_cursor (pos event) w1))
  else Done w.

(** [MainWindow.mouseReleaseEvent]. *)
Definition MainWindow_mouseReleaseEvent (event : QMouseEvent)
  (w : MainWindow) : MainWindow :=
  with_base (Qt.setCursor ArrowCursor)
    (set_resize_direction None (set_resizing false w)).

(** ** Runs of events *)

(** What the event loop can deliver: a mouse event to the title bar or
    to the window, or an emitted signal. *)
Inductive Event : Type :=
| TitlePress (e : QMouseEvent)
| TitleMove (e : QMouseEvent)
| WindowPress (e : QMouseEvent)
| WindowMove (e : QMouseEvent)
| WindowRelease (e : QMouseEvent)
| Emit (s : Signal).

Definition dispatch (ev : Event) (w : MainWindow) : Result :=
  match ev with
  | TitlePress e => Done (CustomTitleBar_mousePressEvent e w)
  | TitleMove e => CustomTitleBar_mouseMoveEvent e w
  | WindowPress e => Done (MainWindow_mousePressEvent e w)
  | WindowMove e => MainWindow_mouseMoveEvent e w
  | WindowRelease e => Done (MainWindow_mouseReleaseEvent e w)
  | Emit s => Done (emit s w)
  end.

(** Deliver the events in order; the run ends at the first one whose
    handler raises. *)
Fixpoint run (evs : list Event) (w : MainWindow) : Result :=
  match evs with
  | [] => Done w
  | ev :: rest => dispatch ev w >>= run rest
  end.

(** A resize session after the press: one [_perform_resize] for each
    cursor position, in order. *)
Fixpoint resize_steps (ps : list QPoint) (w : MainWindow) : Result :=
  match ps with
  | [] => Done w
  | p :: rest => _perform_resize p w >>= resize_steps rest
  end.


(** States reachable from a freshly constructed window. *)
Definition reachable (w : MainWindow) : Prop :=
  exists g evs, run evs (MainWindow_init g) = Done w.

(** How often a call occurs in a list of toolkit calls. *)
Definition is_showNormal (c : Call) : bool :=
  match c with CallShowNormal => true | _ => false end.

Definition count_showNormal (cs : list Call) : nat :=
  List.length (filter is_showNormal cs).


(** ** The drag as the specification words it

    On every move of a drag the window is moved by the current global
    position minus the anchor, and the anchor becomes the current global
    position. *)

Definition spec_drag_step (anchor : QPoint) (e : QMouseEvent)
  (w : MainWindow) : MainWindow :=
  with_titlebar (set_start (Some (globalPos e)))
    (with_base
       (Qt.move (Qt.x (base w) + (px (globalPos e) - px anchor))
                (Qt.y (base w) + (py (globalPos e) - py anchor))) w).

Fixpoint spec_drag (anchor : QPoint) (es : list QMouseEvent)
  (w : MainWindow) : MainWindow :=
  match es with
  | [] => w
  | e :: rest => spec_drag (globalPos e) rest (spec_drag_step anchor e w)
  end.

Definition is_move (c : Call) : bool :=
  match c with CallMove _ _ => true | _ => false end.

(** ** Sample states *)

(** A new 800 x 600 window at (100,100). *)
Definition fresh_window : MainWindow :=
  MainWindow_init (QRect.make 100 100 800 600).

(** The same window after a left press on its right edge, at local
    (799,300). *)
Definition pressed_right : MainWindow :=
  MainWindow_mousePressEvent
    (mkQMouseEvent LeftButton (mkQPoint 799 300) (mkQPoint 899 400))
    fresh_window.

(** The same window after a left press on its left edge, at local
    (2,300). *)
Definition pressed_left : MainWindow :=
  MainWindow_mousePressEvent
    (mkQMouseEvent LeftButton (mkQPoint 2 300) (mkQPoint 102 400))
    fresh_window.

(** The same window after a left press on its top edge, at local
    (400,2). *)
Definition pressed_top : MainWindow :=
  MainWindow_mousePressEvent
    (mkQMouseEvent LeftButton (mkQPoint 400 2) (mkQPoint 500 102))
    fresh_window.

(** A move event at a global position. *)
Definition move_at (gx gy : Z) : QMouseEvent :=
  mkQMouseEvent NoButton (mkQPoint 0 0) (mkQPoint gx gy).

(** ** Notions used by the further properties *)

(** The window an outcome carries, returned or raised. *)
Definition window_of (r : Result) : MainWindow :=
  match r with
  | Done w => w
  | Raised _ w => w
  end.

(** The events that [MainWindow] handles itself. *)
Definition is_window_event (ev : Event) : bool :=
  match ev with
  | WindowPress _ | WindowMove _ | WindowRelease _ => true
  | _ => false
  end.

(** A recorded direction is one of the eight and has its anchor. *)
Definition session_ok (w : MainWindow) : Prop :=
  forall d, _resize_direction w = Some d ->
            In d directions /\ exists a, _drag_pos w = Some a.

(** The column at the same distance from the right edge of a window
    [W] wide as [p] is from the left edge. *)
Definition mirror (W : Z) (p : QPoint) : QPoint :=
  mkQPoint (W - 1 - px p) (py p).

(** Where the cursor is after the positions [ps], having started at
    [anchor]. *)
Definition last_pos (anchor : QPoint) (ps : list QPoint) : QPoint :=
  last ps anchor.

(** The icons agree with the window state as far as the code keeps
    them in step: a maximized window shows the active maximize icon and
    a full-screen window the active full-screen icon. *)
Definition icons_follow_state (w : MainWindow) : Prop :=
  (Qt.isMaximized (base w) = true -> maximize_icon_active w = true) /\
  (Qt.isFullScreen (base w) = true -> fullscreen_icon_active w = true).

(** What the handlers of the title bar leave alone in the window. *)
Definition same_session (w w1 : MainWindow) : Prop :=
  _drag_pos w1 = _drag_pos w /\
  _resizing w1 = _resizing w /\
  _resize_direction w1 = _resize_direction w /\
  cursor (base w1) = cursor (base w).

(** What the handlers of the window leave alone: the title bar, the
    minimized and the visible flag; the maximized and the full-screen
    flag they never set. *)
Definition same_chrome (w w1 : MainWindow) : Prop :=
  customTitleBar w1 = customTitleBar w /\
  minimized (base w1) = minimized (base w) /\
  visible (base w1) = visible (base w) /\
  (maximized (base w1) = true -> maximized (base w) = true) /\
  (fullscreen (base w1) = true -> fullscreen (base w) = true).

(** The configuration set at construction. *)
Definition same_config (w w1 : MainWindow) : Prop :=
  _edge_margin w1 = _edge_margin w /\
  minimumWidth (base w1) = minimumWidth (base w) /\
  minimumHeight (base w1) = minimumHeight (base w).

(** * Properties *)

(** ** The hit test *)

Ltac hit_cases pos W H M :=
  unfold _get_resize_direction, near_left, near_right, near_top, near_bottom;
  rewrite ?Z.geb_leb;
  destruct (Z.leb_spec (px pos) M), (Z.leb_spec (W - M) (px pos)),
           (Z.leb_spec (py pos) M), (Z.leb_spec (H - M) (py pos));
  cbn [andb].

(** The hit test always answers with one of the nine outcomes. *)
Lemma hit_in_outcomes (W H M : Z) (pos : QPoint) :
  In (_get_resize_direction W H M pos) outcomes.
Proof.
  hit_cases pos W H M; unfold outcomes; cbn [In]; tauto.
Qed.

(** The answer is [None] exactly when no edge is near. *)
Lemma hit_none_iff (W H M : Z) (pos : QPoint) :
  _get_resize_direction W H M pos = None <->
  near_left M pos = false /\ near_right W M pos = false /\
  near_top M pos = false /\ near_bottom H M pos = false.
Proof.
  hit_cases pos W H M; intuition (discriminate || reflexivity).
Qed.

(** The first test of the chain is exact at every size. *)
Lemma hit_top_left_iff (W H M : Z) (pos : QPoint) :
  _get_resize_direction W H M pos = Some "top-left" <->
  near_left M pos = true /\ near_top M pos = true.
Proof.
  hit_cases pos W H M; intuition (discriminate || reflexivity).
Qed.

(** A corner is only ever answered when both of its edges are near. *)
Lemma hit_corner_sound (W H M : Z) (pos : QPoint) :
  (_get_resize_direction W H M pos = Some "bottom-left" ->
   near_left M pos = true /\ near_bottom H M pos = true) /\
  (_get_resize_direction W H M pos = Some "top-right" ->
   near_right W M pos = true /\ near_top M pos = true) /\
  (_get_resize_direction W H M pos = Some "bottom-right" ->
   near_right W M pos = true /\ near_bottom H M pos = true).
Proof.
  hit_cases pos W H M; intuition (discriminate || reflexivity).
Qed.

(** Some corner is answered exactly when a horizontal and a vertical
    edge are near together. *)
Lemma hit_some_corner_iff (W H M : Z) (pos : QPoint) :
  In (_get_resize_direction W H M pos)
     [Some "top-left"; Some "bottom-left"; Some "top-right"; Some "bottom-right"] <->
  (near_left M pos || near_right W M pos) &&
  (near_top M pos || near_bottom H M pos) = true.
Proof.
  hit_cases pos W H M; cbn [In orb andb];
    intuition (discriminate || reflexivity || auto).
Qed.

(** C1: in every window whose opposite margins do not overlap
    ([2 * M < W] and [2 * M < H]), which covers every window the program
    can have (margin 8, at least 800 x 600), the hit test answers with
    exactly one of the nine outcomes, answers with a corner if and only
    if both edges of that corner are near, and answers [None] if and
    only if no edge is near; at (4,4) in an 800 x 600 window with margin
    8 the answer is top-left. *)
Theorem C1_hit_test_corners (W H M : Z) (pos : QPoint) :
  2 * M < W -> 2 * M < H ->
  In (_get_resize_direction W H M pos) outcomes /\
  (_get_resize_direction W H M pos = Some "top-left" <->
   near_left M pos = true /\ near_top M pos = true) /\
  (_get_resize_direction W H M pos = Some "bottom-left" <->
   near_left M pos = true /\ near_bottom H M pos = true) /\
  (_get_resize_direction W H M pos = Some "top-right" <->
   near_right W M pos = true /\ near_top M pos = true) /\
  (_get_resize_direction W H M pos = Some "bottom-right" <->
   near_right W M pos = true /\ near_bottom H M pos = true) /\
  (_get_resize_direction W H M pos = None <->
   near_left M pos = false /\ near_right W M pos = false /\
   near_top M pos = false /\ near_bottom H M pos = false) /\
  _get_resize_direction 800 600 8 (mkQPoint 4 4) = Some "top-left".
Proof.
  intros HW HH.
  split; [apply hit_in_outcomes|].
  split; [apply hit_top_left_iff|].
  split; [|split; [|split; [|split; [apply hit_none_iff | reflexivity]]]];
    hit_cases pos W H M; intuition (discriminate || reflexivity || lia).
Qed.

Lemma C1_hit_test_corners_witness :
  2 * 8 < 800 /\ 2 * 8 < 600 /\
  _get_resize_direction 800 600 8 (mkQPoint 4 4) = Some "top-left".
Proof.
  split; [lia|]. split; [lia|].
  apply (C1_hit_test_corners 800 600 8 (mkQPoint 4 4)); lia.
Defined.

(** Why the margins must not overlap: in a window narrower than two
    margins, which the minimum size of the program rules out, the chain
    answers with the first corner that matches.  At (0,5) in a 10 x 10
    window with margin 8 the left and the bottom edge are both near, and
    the answer is top-left, not bottom-left. *)
Remark overlapping_margins_first_corner :
  ~ (_get_resize_direction 10 10 8 (mkQPoint 0 5) = Some "bottom-left" <->
     near_left 8 (mkQPoint 0 5) = true /\
     near_bottom 10 8 (mkQPoint 0 5) = true).
Proof.
  intros [_ H]. specialize (H (conj eq_refl eq_refl)). discriminate H.
Qed.

(** ** Resizing *)

(** With an anchor and a direction recorded, [_perform_resize] returns:
    it hands the computed rectangle to [setGeometry] and moves the
    anchor to the cursor. *)
Lemma _perform_resize_returns (d : string) (anchor p : QPoint) (w : MainWindow) :
  _resize_direction w = Some d ->
  _drag_pos w = Some anchor ->
  _perform_resize p w =
  Done (set_drag_pos (Some p)
          (with_base
             (Qt.setGeometry
                (_perform_resize_rect d (QPoint_sub p anchor)
                   (minimumWidth (base w)) (minimumHeight (base w))
                   (geometry (base w)))) w)).
Proof.
  intros Hd Ha. unfold _perform_resize. rewrite Ha, Hd. reflexivity.
Qed.

Ltac qrect :=
  unfold QRect.width, QRect.height, QRect.setWidth, QRect.setHeight,
    QRect.setLeft, QRect.setTop, QRect.left, QRect.top, QRect.right,
    QRect.bottom in *;
  cbn [x1 y1 x2 y2] in *.

Ltac each_direction H :=
  unfold directions in H; cbn [In] in H;
  repeat (destruct H as [H | H]; [subst | ]); [ .. | contradiction H ].

(** What the toolkit makes of a requested rectangle: the corner is
    kept, each dimension is the larger of the requested one and the
    minimum. *)
Lemma constrained_facts (q : QWidget) (r : QRect) :
  QRect.left (Qt.constrained q r) = QRect.left r /\
  QRect.top (Qt.constrained q r) = QRect.top r /\
  QRect.width (Qt.constrained q r) = Z.max (QRect.width r) (minimumWidth q) /\
  QRect.height (Qt.constrained q r) = Z.max (QRect.height r) (minimumHeight q).
Proof.
  unfold Qt.constrained, QRect.make. qrect. repeat split; lia.
Qed.

(** [setGeometry] never sets the maximized or the full-screen flag. *)
Lemma setGeometry_flags (r : QRect) (q : QWidget) :
  (maximized (Qt.setGeometry r q) = true -> maximized q = true) /\
  (fullscreen (Qt.setGeometry r q) = true -> fullscreen q = true).
Proof.
  unfold Qt.setGeometry. cbn [maximized fullscreen].
  destruct (negb (QRect.eqb (Qt.constrained q r) (geometry q)));
    split; intros H; (discriminate H || exact H).
Qed.

(** One step of a session, in full: the rectangle of the arithmetic is
    handed to [setGeometry], the window gets it as the toolkit constrains
    it, the anchor moves to the cursor, and direction and minimum size
    stay. *)
Lemma _perform_resize_step (d : string) (anchor p : QPoint) (w : MainWindow) :
  _resize_direction w = Some d ->
  _drag_pos w = Some anchor ->
  exists w1,
    _perform_resize p w = Done w1 /\
    calls (base w1) =
      (calls (base w) ++
       [CallSetGeometry
          (_perform_resize_rect d (QPoint_sub p anchor) (minimumWidth (base w))
             (minimumHeight (base w)) (geometry (base w)))])%list /\
    geometry (base w1) =
      Qt.constrained (base w)
        (_perform_resize_rect d (QPoint_sub p anchor) (minimumWidth (base w))
           (minimumHeight (base w)) (geometry (base w))) /\
    _resize_direction w1 = Some d /\
    _drag_pos w1 = Some p /\
    minimumWidth (base w1) = minimumWidth (base w) /\
    minimumHeight (base w1) = minimumHeight (base w).
Proof.
  intros Hd Ha. rewrite (_perform_resize_returns d anchor p w Hd Ha).
  eexists. split; [reflexivity|].
  repeat split. exact Hd.
Qed.

(** For a direction that contains right, the new width is the clamped
    sum. *)
Lemma rect_width_right (d : string) (delta : QPoint) (minw minh : Z) (r : QRect) :
  In d directions -> str_in "right" d = true ->
  QRect.width (_perform_resize_rect d delta minw minh r) =
  Z.max (QRect.width r + px delta) minw.
Proof.
  intros Hin Hr. each_direction Hin; try discriminate Hr;
    unfold _perform_resize_rect; cbn; qrect; lia.
Qed.






(** The scenario of the specification: a press at local (799,300) on
    the 800 x 600 window at (100,100) starts a session to the right,
    and a move 50 to the right makes the window 850 wide with its left
    edge where it was. *)
Example right_edge_scenario :
  _resize_direction pressed_right = Some "right" /\
  _resizing pressed_right = true /\
  exists w1,
    MainWindow_mouseMoveEvent
      (mkQMouseEvent LeftButton (mkQPoint 849 300) (mkQPoint 949 400))
      pressed_right = Done w1 /\
    QRect.width (geometry (base w1)) = 850 /\
    QRect.left (geometry (base w1)) = 100.
Proof.
  split; [reflexivity|]. split; [reflexivity|].
  eexists. split; [reflexivity|]. split; reflexivity.
Qed.

(** A left press on an edge or corner records what a session needs:
    the anchor, one of the eight directions, and the resizing flag. *)
Lemma press_starts_session (event : QMouseEvent) (w : MainWindow) (d : string) :
  button event = LeftButton ->
  hit_test w (pos event) = Some d ->
  In d directions /\
  _resize_direction (MainWindow_mousePressEvent event w) = Some d /\
  _drag_pos (MainWindow_mousePressEvent event w) = Some (globalPos event) /\
  _resizing (MainWindow_mousePressEvent event w) = true.
Proof.
  intros Hb Hd.
  assert (Hin : In d directions).
  { pose proof (hit_in_outcomes (QRect.width (Qt.rect (base w)))
                  (QRect.height (Qt.rect (base w))) (_edge_margin w)
                  (pos event)) as Ho.
    fold (hit_test w (pos event)) in Ho. rewrite Hd in Ho.
    unfold outcomes in Ho. unfold directions. cbn [In] in *.
    repeat (destruct Ho as [Ho | Ho];
            [injection Ho as <-; auto 10 | ]);
      destruct Ho as [Ho | []]; discriminate Ho. }
  split; [exact Hin|].
  unfold MainWindow_mousePressEvent. rewrite Hb.
  change (hit_test (set_drag_pos (Some (globalPos event)) w) (pos event))
    with (hit_test w (pos event)).
  rewrite Hd. cbn [_resize_direction set_resize_direction truthy].
  each_direction Hin; repeat split.
Qed.

(** C3: when the direction contains left, the rectangle that
    [_perform_resize] produces and hands to [setGeometry] has its left
    edge moved by the horizontal delta and its right edge where it was,
    so its width changes by minus the delta, with no clamp; when the
    direction contains top, the same holds for the top edge and the
    height.  The window takes the moved left or top edge as it is; its
    size is what the toolkit makes of the rectangle.  From an 800 x 600
    window a drag of the left edge 100 to the right produces a rectangle
    700 wide, and a drag of the top edge 100 down one 500 high, both
    below the minimum. *)
Theorem C3_left_top_unclamped
  (d : string) (anchor p : QPoint) (w : MainWindow) :
  In d directions ->
  _resize_direction w = Some d ->
  _drag_pos w = Some anchor ->
  (exists w1 r,
     _perform_resize p w = Done w1 /\
     calls (base w1) = (calls (base w) ++ [CallSetGeometry r])%list /\
     geometry (base w1) = Qt.constrained (base w) r /\
     (str_in "left" d = true ->
      QRect.left r = QRect.left (geometry (base w)) + (px p - px anchor) /\
      QRect.right r = QRect.right (geometry (base w)) /\
      QRect.width r = QRect.width (geometry (base w)) - (px p - px anchor) /\
      QRect.left (geometry (base w1)) =
        QRect.left (geometry (base w)) + (px p - px anchor)) /\
     (str_in "top" d = true ->
      QRect.top r = QRect.top (geometry (base w)) + (py p - py anchor) /\
      QRect.bottom r = QRect.bottom (geometry (base w)) /\
      QRect.height r = QRect.height (geometry (base w)) - (py p - py anchor) /\
      QRect.top (geometry (base w1)) =
        QRect.top (geometry (base w)) + (py p - py anchor))) /\
  (exists w1 r,
     _perform_resize (mkQPoint 202 400) pressed_left = Done w1 /\
     calls (base w1) = (calls (base pressed_left) ++ [CallSetGeometry r])%list /\
     minimumWidth (base pressed_left) <= QRect.width (geometry (base pressed_left)) /\
     QRect.width r < minimumWidth (base w1)) /\
  (exists w1 r,
     _perform_resize (mkQPoint 500 202) pressed_top = Done w1 /\
     calls (base w1) = (calls (base pressed_top) ++ [CallSetGeometry r])%list /\
     minimumHeight (base pressed_top) <= QRect.height (geometry (base pressed_top)) /\
     QRect.height r < minimumHeight (base w1)).
Proof.
  intros Hin Hd Ha. split; [|split].
  - destruct (_perform_resize_step d anchor p w Hd Ha)
      as (w1 & Hrun & Hc & Hg & _).
    exists w1. eexists. split; [exact Hrun|]. split; [exact Hc|].
    split; [exact Hg|].
    destruct (constrained_facts (base w)
                (_perform_resize_rect d (QPoint_sub p anchor)
                   (minimumWidth (base w)) (minimumHeight (base w))
                   (geometry (base w))))
      as (Cl & Ct & _ & _).
    rewrite Hg, Cl, Ct.
    split; intros Hs; each_direction Hin; try discriminate Hs;
      unfold _perform_resize_rect; cbn; qrect; repeat split; lia.
  - do 2 eexists. split; [reflexivity|]. split; [reflexivity|].
    split; vm_compute; [discriminate | reflexivity].
  - do 2 eexists. split; [reflexivity|]. split; [reflexivity|].
    split; vm_compute; [discriminate | reflexivity].
Qed.

Lemma C3_left_top_unclamped_witness :
  exists w1 r,
    _perform_resize (mkQPoint 202 400) pressed_left = Done w1 /\
    calls (base w1) = [CallSetGeometry r] /\
    QRect.left r = 200 /\
    QRect.right r = 899 /\
    QRect.width r = 700 /\
    QRect.left (geometry (base w1)) = 200 /\
    QRect.width (geometry (base w1)) = 800.
Proof.
  destruct (C3_left_top_unclamped "left" (mkQPoint 102 400) (mkQPoint 202 400)
              pressed_left) as [(w1 & r & Hrun & Hc & Hg & Hl & _) _].
  - cbn. tauto.
  - reflexivity.
  - reflexivity.
  - exists w1, r. split; [exact Hrun|]. split; [exact Hc|].
    destruct (Hl eq_refl) as (H1 & H2 & H3 & H4).
    destruct (constrained_facts (base pressed_left) r) as (_ & _ & Cw & _).
    rewrite H4, Hg, Cw, H1, H2, H3. repeat split; reflexivity.
Defined.

(** ** Moves without a session *)

(** On the window, a move with no active resize session changes
    nothing and returns. *)
Lemma window_move_without_session (e : QMouseEvent) (w : MainWindow) :
  _resizing w && truthy (_resize_direction w) = false ->
  MainWindow_mouseMoveEvent e w = Done w.
Proof.
  intros H. unfold MainWindow_mouseMoveEvent. now rewrite H.
Qed.

(** On the title bar, a move with no recorded press never returns: it
    raises [TypeError]. *)
Lemma titlebar_move_without_press (e : QMouseEvent) (w : MainWindow) :
  start (customTitleBar w) = None ->
  exists w1, CustomTitleBar_mouseMoveEvent e w = Raised TypeError w1.
Proof.
  intros H. unfold CustomTitleBar_mouseMoveEvent.
  destruct (Qt.isMaximized (base w) || Qt.isFullScreen (base w)).
  - change (start (customTitleBar (restore_for_drag w)))
      with (start (customTitleBar w)).
    rewrite H. eexists. reflexivity.
  - rewrite H. eexists. reflexivity.
Qed.

(** C4, the code at the failing input: on a newly constructed window
    (no press recorded on the title bar) a title-bar move raises
    [TypeError]; and when that window has been maximized the same move
    first restores it and resets both icons, then raises. *)
Theorem C4_titlebar_move_before_press_raises (e : QMouseEvent) (g : QRect) :
  CustomTitleBar_mouseMoveEvent e (MainWindow_init g) =
    Raised TypeError (MainWindow_init g) /\
  CustomTitleBar_mouseMoveEvent e (showParentMaximized (MainWindow_init g)) =
    Raised TypeError (restore_for_drag (showParentMaximized (MainWindow_init g))) /\
  restore_for_drag (showParentMaximized (MainWindow_init g)) <>
    showParentMaximized (MainWindow_init g).
Proof.
  split; [reflexivity|]. split; [reflexivity|].
  intros H. apply (f_equal (fun w => maximized (base w))) in H.
  discriminate H.
Qed.

(** ** Maximize and full screen *)

(** The maximize toggle on a window that is not maximized maximizes
    it, shows the active maximize icon and leaves the full-screen icon
    as it was. *)
Lemma maximize_toggle_enters (w : MainWindow) :
  Qt.isMaximized (base w) = false ->
  Qt.isMaximized (base (showParentMaximized w)) = true /\
  Qt.isFullScreen (base (showParentMaximized w)) = false /\
  maximize_icon_active (showParentMaximized w) = true /\
  fullscreen_icon_active (showParentMaximized w) = fullscreen_icon_active w.
Proof.
  intros H. unfold showParentMaximized. rewrite H.
  repeat split; reflexivity.
Qed.

(** The full-screen toggle on a window that is not full screen enters
    full screen, clears the maximized flag, shows the active full-screen
    icon and leaves the maximize icon as it was. *)
Lemma fullscreen_toggle_enters (w : MainWindow) :
  Qt.isFullScreen (base w) = false ->
  Qt.isFullScreen (base (showParentFullScreen w)) = true /\
  Qt.isMaximized (base (showParentFullScreen w)) = false /\
  fullscreen_icon_active (showParentFullScreen w) = true /\
  maximize_icon_active (showParentFullScreen w) = maximize_icon_active w.
Proof.
  intros H. unfold showParentFullScreen. rewrite H.
  repeat split; reflexivity.
Qed.

(** Emitting a button's signal runs the method connected to it. *)
Lemma emit_buttons (w : MainWindow) :
  emit maximizeButton_clicked w = showParentMaximized w /\
  emit fullScreenButton_clicked w = showParentFullScreen w /\
  emit minimizeButton_clicked w = showParentMinimized w /\
  emit closeButton_clicked w = closeParent w.
Proof.
  repeat split; reflexivity.
Qed.

(** C5, as amended: after maximize, full screen and a press of the
    maximize toggle, the toggle has found the window not maximized
    (entering full screen cleared that flag) and has maximized it: the
    window is maximized, not full screen, and the maximize button shows
    its active icon. *)
Theorem C5_toggle_after_fullscreen_maximizes (w : MainWindow) :
  Qt.isMaximized (base w) = false ->
  exists w1 w2 w3,
    run [Emit maximizeButton_clicked] w = Done w1 /\
    Qt.isMaximized (base w1) = true /\
    run [Emit fullScreenButton_clicked] w1 = Done w2 /\
    Qt.isFullScreen (base w2) = true /\
    Qt.isMaximized (base w2) = false /\
    run [Emit maximizeButton_clicked] w2 = Done w3 /\
    Qt.isMaximized (base w3) = true /\
    Qt.isFullScreen (base w3) = false /\
    maximize_icon_active w3 = true.
Proof.
  intros H.
  destruct (maximize_toggle_enters w H) as (Hm1 & Hf1 & _ & _).
  destruct (fullscreen_toggle_enters _ Hf1) as (Hf2 & Hm2 & _ & _).
  destruct (maximize_toggle_enters _ Hm2) as (Hm3 & Hf3 & Hi3 & _).
  exists (showParentMaximized w),
         (showParentFullScreen (showParentMaximized w)),
         (showParentMaximized (showParentFullScreen (showParentMaximized w))).
  repeat split; assumption || reflexivity.
Qed.

Lemma C5_toggle_after_fullscreen_maximizes_witness :
  exists w3,
    run [Emit maximizeButton_clicked; Emit fullScreenButton_clicked;
         Emit maximizeButton_clicked] fresh_window = Done w3 /\
    Qt.isMaximized (base w3) = true.
Proof.
  destruct (C5_toggle_after_fullscreen_maximizes fresh_window eq_refl)
    as (w1 & w2 & w3 & H1 & _ & H2 & _ & _ & H3 & Hmax & _).
  exists w3. split; [|exact Hmax].
  cbn [run dispatch bind] in *.
  injection H1 as <-. injection H2 as <-. injection H3 as <-.
  reflexivity.
Defined.

(** On a new window the scenario does not end with a normal window and
    two plain icons. *)
Lemma C5_scenario_not_restored :
  ~ (exists w1,
       run [Emit maximizeButton_clicked; Emit fullScreenButton_clicked;
            Emit maximizeButton_clicked] fresh_window = Done w1 /\
       Qt.isMaximized (base w1) = false /\
       Qt.isFullScreen (base w1) = false /\
       maximize_icon_active w1 = false /\
       fullscreen_icon_active w1 = false).
Proof.
  intros (w1 & Hrun & Hmax & _).
  vm_compute in Hrun. injection Hrun as <-. discriminate Hmax.
Qed.

(** C6, the code at the failing input: on a new window a click on the
    maximize button and then one on the full-screen button reach a state
    in which both buttons show their active icon. *)
Theorem C6_both_icons_active_reachable :
  exists w,
    run [Emit maximizeButton_clicked; Emit fullScreenButton_clicked]
        fresh_window = Done w /\
    reachable w /\
    maximize_icon_active w = true /\
    fullscreen_icon_active w = true.
Proof.
  eexists. split; [reflexivity|]. split.
  - exists (QRect.make 100 100 800 600),
      [Emit maximizeButton_clicked; Emit fullScreenButton_clicked].
    reflexivity.
  - split; reflexivity.
Qed.

(** ** Dragging the title bar *)

(** A move on a window that is neither maximized nor full screen, with
    an anchor recorded, is exactly the step the specification words:
    no restore, one move by the delta, the anchor set to the cursor. *)
Lemma titlebar_move_normal (anchor : QPoint) (e : QMouseEvent) (w : MainWindow) :
  Qt.isMaximized (base w) = false ->
  Qt.isFullScreen (base w) = false ->
  start (customTitleBar w) = Some anchor ->
  CustomTitleBar_mouseMoveEvent e w = Done (spec_drag_step anchor e w).
Proof.
  intros Hm Hf Hs. unfold CustomTitleBar_mouseMoveEvent.
  rewrite Hm, Hf. cbn [orb]. rewrite Hs. reflexivity.
Qed.

(** The first move on a maximized or full-screen window restores it
    and then makes the same step. *)
Lemma titlebar_move_restores (anchor : QPoint) (e : QMouseEvent) (w : MainWindow) :
  Qt.isMaximized (base w) || Qt.isFullScreen (base w) = true ->
  start (customTitleBar w) = Some anchor ->
  CustomTitleBar_mouseMoveEvent e w =
  Done (spec_drag_step anchor e (restore_for_drag w)).
Proof.
  intros Hm Hs. unfold CustomTitleBar_mouseMoveEvent. rewrite Hm.
  change (start (customTitleBar (restore_for_drag w)))
    with (start (customTitleBar w)).
  rewrite Hs. reflexivity.
Qed.

(** The step keeps the window state flags, records the cursor as the
    anchor and appends one move to the calls. *)
Lemma spec_drag_step_facts (anchor : QPoint) (e : QMouseEvent) (w : MainWindow) :
  Qt.isMaximized (base (spec_drag_step anchor e w)) = Qt.isMaximized (base w) /\
  Qt.isFullScreen (base (spec_drag_step anchor e w)) = Qt.isFullScreen (base w) /\
  start (customTitleBar (spec_drag_step anchor e w)) = Some (globalPos e) /\
  exists nx ny,
    calls (base (spec_drag_step anchor e w)) = (calls (base w) ++ [CallMove nx ny])%list.
Proof.
  repeat split. do 2 eexists. reflexivity.
Qed.

(** The moves of a drag on a normal window: every one is the step of
    the specification, and together they append one move each and
    nothing else to the calls. *)
Lemma titlebar_moves_normal (es : list QMouseEvent) :
  forall (anchor : QPoint) (w : MainWindow),
  Qt.isMaximized (base w) = false ->
  Qt.isFullScreen (base w) = false ->
  start (customTitleBar w) = Some anchor ->
  run (map TitleMove es) w = Done (spec_drag anchor es w) /\
  exists ms,
    calls (base (spec_drag anchor es w)) = (calls (base w) ++ ms)%list /\
    forallb is_move ms = true /\
    List.length ms = List.length es.
Proof.
  induction es as [|e es IH]; intros anchor w Hm Hf Hs.
  - split; [reflexivity|]. exists []. rewrite app_nil_r. repeat split.
  - destruct (spec_drag_step_facts anchor e w) as (Hm1 & Hf1 & Hs1 & nx & ny & Hc1).
    rewrite Hm in Hm1. rewrite Hf in Hf1.
    destruct (IH (globalPos e) (spec_drag_step anchor e w) Hm1 Hf1 Hs1)
      as (Hrun & ms & Hc & Hall & Hlen).
    split.
    + cbn [map run dispatch]. rewrite (titlebar_move_normal anchor e w Hm Hf Hs).
      exact Hrun.
    + exists (CallMove nx ny :: ms). cbn [spec_drag].
      rewrite Hc, Hc1, <- app_assoc. cbn [app forallb is_move andb List.length].
      repeat split; [assumption | now rewrite Hlen].
Qed.

(** C7: a drag of the title bar that starts on a maximized or
    full-screen window (a press, then one or more moves) returns; its
    first move restores the window before moving it by the first delta,
    every later move is only the incremental step (move by the cursor
    minus the anchor, then anchor := cursor), and the calls issued by
    the whole drag are one [showNormal] followed by one [move] per move
    event. *)
Theorem C7_drag_restores_once
  (e0 e1 : QMouseEvent) (es : list QMouseEvent) (w : MainWindow) :
  Qt.isMaximized (base w) || Qt.isFullScreen (base w) = true ->
  run (TitlePress e0 :: TitleMove e1 :: map TitleMove es) w =
    Done (spec_drag (globalPos e1) es
            (spec_drag_step (globalPos e0) e1
               (restore_for_drag (CustomTitleBar_mousePressEvent e0 w)))) /\
  exists w1 ms,
    run (TitlePress e0 :: TitleMove e1 :: map TitleMove es) w = Done w1 /\
    calls (base w1) = (calls (base w) ++ CallShowNormal :: ms)%list /\
    forallb is_move ms = true /\
    List.length ms = S (List.length es) /\
    count_showNormal (CallShowNormal :: ms) = 1%nat.
Proof.
  intros Hmax.
  set (w0 := CustomTitleBar_mousePressEvent e0 w).
  assert (Hfirst : CustomTitleBar_mouseMoveEvent e1 w0 =
                   Done (spec_drag_step (globalPos e0) e1 (restore_for_drag w0)))
    by (apply titlebar_move_restores; [exact Hmax | reflexivity]).
  set (w1 := spec_drag_step (globalPos e0) e1 (restore_for_drag w0)) in *.
  destruct (titlebar_moves_normal es (globalPos e1) w1 eq_refl eq_refl eq_refl)
    as (Hrun & ms & Hc & Hall & Hlen).
  assert (Hwhole : run (TitlePress e0 :: TitleMove e1 :: map TitleMove es) w =
                   Done (spec_drag (globalPos e1) es w1)).
  { cbn [run dispatch bind]. fold w0. rewrite Hfirst. cbn [bind]. exact Hrun. }
  split; [exact Hwhole|].
  destruct (spec_drag_step_facts (globalPos e0) e1 (restore_for_drag w0))
    as (_ & _ & _ & nx & ny & Hc1).
  exists (spec_drag (globalPos e1) es w1), (CallMove nx ny :: ms).
  split; [exact Hwhole|]. split.
  - rewrite Hc. unfold w1. rewrite Hc1. cbn. rewrite <- !app_assoc. reflexivity.
  - cbn [forallb is_move andb List.length]. repeat split; [assumption | now rewrite Hlen |].
    unfold count_showNormal. cbn [filter is_showNormal List.length]. f_equal.
    clear - Hall. induction ms as [|c ms IH]; [reflexivity|].
    cbn [forallb] in Hall. apply andb_prop in Hall as [Hc Hms].
    destruct c; try discriminate Hc. cbn [filter is_showNormal]. exact (IH Hms).
Qed.

Lemma C7_drag_restores_once_witness :
  exists w1,
    run [TitlePress (move_at 500 10); TitleMove (move_at 510 30);
         TitleMove (move_at 520 50)] (showParentMaximized fresh_window) = Done w1 /\
    calls (base w1) =
      [CallShowMaximized; CallShowNormal; CallMove 110 120; CallMove 120 140].
Proof.
  destruct (C7_drag_restores_once (move_at 500 10) (move_at 510 30)
              [move_at 520 50] (showParentMaximized fresh_window) eq_refl)
    as (Hrun & _).
  eexists. split; [exact Hrun | reflexivity].
Defined.

(** ** Release, press and close *)

(** C8: whatever the state and the event, after
    [MainWindow.mouseReleaseEvent] the window is not resizing, has no
    resize direction and shows the arrow cursor; the handler issues the
    one [setCursor] call and touches nothing else. *)
Theorem C8_release_clears_session (event : QMouseEvent) (w : MainWindow) :
  _resizing (MainWindow_mouseReleaseEvent event w) = false /\
  _resize_direction (MainWindow_mouseReleaseEvent event w) = None /\
  cursor (base (MainWindow_mouseReleaseEvent event w)) = ArrowCursor /\
  calls (base (MainWindow_mouseReleaseEvent event w)) =
    (calls (base w) ++ [CallSetCursor ArrowCursor])%list /\
  _drag_pos (MainWindow_mouseReleaseEvent event w) = _drag_pos w /\
  geometry (base (MainWindow_mouseReleaseEvent event w)) = geometry (base w) /\
  customTitleBar (MainWindow_mouseReleaseEvent event w) = customTitleBar w.
Proof.
  repeat split.
Qed.

(** C9: the quit action and the close button are connected to the same
    single slot, [closeParent]; emitting either signal is the same
    function of the window, namely [closeParent], which calls the
    parent window's [close]. *)
Theorem C9_quit_is_close :
  slots_of action_quit_triggered connections = [slot_closeParent] /\
  slots_of closeButton_clicked connections = [slot_closeParent] /\
  emit action_quit_triggered = emit closeButton_clicked /\
  emit action_quit_triggered = closeParent /\
  forall w, closeParent w = with_base Qt.close w /\
            calls (base (closeParent w)) = (calls (base w) ++ [CallClose])%list.
Proof.
  repeat split.
Qed.

(** C10: a press with any button but the left one returns the window
    as it was, so [_drag_pos], [_resizing] and [_resize_direction] are
    unchanged. *)
Theorem C10_other_buttons_ignored (event : QMouseEvent) (w : MainWindow) :
  button event <> LeftButton ->
  MainWindow_mousePressEvent event w = w /\
  _drag_pos (MainWindow_mousePressEvent event w) = _drag_pos w /\
  _resizing (MainWindow_mousePressEvent event w) = _resizing w /\
  _resize_direction (MainWindow_mousePressEvent event w) = _resize_direction w.
Proof.
  intros Hb.
  assert (H : MainWindow_mousePressEvent event w = w).
  { unfold MainWindow_mousePressEvent.
    destruct (button event); try reflexivity. now contradiction Hb. }
  rewrite H. repeat split.
Qed.

Lemma C10_other_buttons_ignored_witness :
  MainWindow_mousePressEvent
    (mkQMouseEvent RightButton (mkQPoint 2 2) (mkQPoint 102 102))
    pressed_right = pressed_right.
Proof.
  apply (C10_other_buttons_ignored
           (mkQMouseEvent RightButton (mkQPoint 2 2) (mkQPoint 102 102))
           pressed_right).
  discriminate.
Defined.

(** A left press at the same place does start a session, here towards
    the top-left corner. *)
Example left_press_starts_session :
  _resize_direction
    (MainWindow_mousePressEvent
       (mkQMouseEvent LeftButton (mkQPoint 4 4) (mkQPoint 104 104))
       fresh_window) = Some "top-left" /\
  _resizing
    (MainWindow_mousePressEvent
       (mkQMouseEvent LeftButton (mkQPoint 4 4) (mkQPoint 104 104))
       fresh_window) = true.
Proof.
  split; reflexivity.
Qed.

(** * Further properties *)

(** ** Hit test, cursor and direction strings *)

Ltac each_outcome H :=
  unfold outcomes in H; cbn [In] in H;
  repeat (destruct H as [H | H]; [ | ]); [ .. | contradiction H ].

(** X1: the cursor that [_update_cursor] sets at a position is the
    arrow exactly when the hit test finds no edge there, and on a window
    that is not resizing a left press starts a resize session exactly
    at the positions where that cursor is not the arrow. *)
Theorem X1_cursor_matches_press (event : QMouseEvent) (w : MainWindow) :
  button event = LeftButton ->
  _resizing w = false ->
  (cursor (base (_update_cursor (pos event) w)) = ArrowCursor <->
   hit_test w (pos event) = None) /\
  (_resizing (MainWindow_mousePressEvent event w) = true <->
   cursor (base (_update_cursor (pos event) w)) <> ArrowCursor).
Proof.
  intros Hb Hr.
  unfold MainWindow_mousePressEvent. rewrite Hb.
  change (hit_test (set_drag_pos (Some (globalPos event)) w) (pos event))
    with (hit_test w (pos event)).
  cbn [_update_cursor with_base base cursor Qt.setCursor
       _resize_direction set_resize_direction].
  pose proof (hit_in_outcomes (QRect.width (Qt.rect (base w)))
                (QRect.height (Qt.rect (base w))) (_edge_margin w)
                (pos event)) as Ho.
  fold (hit_test w (pos event)) in Ho.
  each_outcome Ho; rewrite <- Ho; cbn; rewrite ?Hr;
    (split; split; intros; try discriminate; try reflexivity; try congruence).
Qed.

Lemma X1_cursor_matches_press_witness :
  _resizing
    (MainWindow_mousePressEvent
       (mkQMouseEvent LeftButton (mkQPoint 4 4) (mkQPoint 104 104))
       fresh_window) = true <->
  cursor (base (_update_cursor (mkQPoint 4 4) fresh_window)) <> ArrowCursor.
Proof.
  apply (X1_cursor_matches_press
           (mkQMouseEvent LeftButton (mkQPoint 4 4) (mkQPoint 104 104))
           fresh_window); reflexivity.
Defined.

(** X2: in a window whose opposite margins do not overlap, the
    direction string of the hit test and the substring tests of
    [_perform_resize] round-trip: the string contains left, right, top
    or bottom exactly when the position is near that edge. *)
Theorem X2_direction_decodes (W H M : Z) (pos : QPoint) (d : string) :
  2 * M < W -> 2 * M < H ->
  _get_resize_direction W H M pos = Some d ->
  str_in "left" d = near_left M pos /\
  str_in "right" d = near_right W M pos /\
  str_in "top" d = near_top M pos /\
  str_in "bottom" d = near_bottom H M pos.
Proof.
  intros HW HH. unfold near_left, near_right, near_top, near_bottom.
  hit_cases pos W H M; intros Hd; try discriminate Hd; try lia;
    injection Hd as <-; repeat split.
Qed.

Lemma X2_direction_decodes_witness :
  str_in "left" "bottom-right" = near_left 8 (mkQPoint 795 598) /\
  str_in "right" "bottom-right" = near_right 800 8 (mkQPoint 795 598) /\
  str_in "top" "bottom-right" = near_top 8 (mkQPoint 795 598) /\
  str_in "bottom" "bottom-right" = near_bottom 600 8 (mkQPoint 795 598).
Proof.
  apply (X2_direction_decodes 800 600 8 (mkQPoint 795 598) "bottom-right");
    [lia | lia | reflexivity].
Defined.

(** X3: the two horizontal bands are not mirror images: the mirror
    image of a column is near the right edge exactly when the column is
    at most [M - 1], so column [M] is the one column that is near the
    left edge while its mirror image is not near the right edge. *)
Theorem X3_left_band_one_wider (W M : Z) (p : QPoint) :
  near_right W M (mirror W p) = (px p <=? M - 1) /\
  (near_left M p = true /\ near_right W M (mirror W p) = false <-> px p = M).
Proof.
  unfold near_left, near_right, mirror. cbn [px]. rewrite Z.geb_leb.
  destruct (Z.leb_spec (W - M) (W - 1 - px p)), (Z.leb_spec (px p) (M - 1)),
           (Z.leb_spec (px p) M); try lia;
    (split; [reflexivity|]); split; intros; try lia;
    try (destruct H2; discriminate); split; reflexivity.
Qed.

(** ** Resize sessions as a whole *)

Lemma last_pos_cons (a p : QPoint) (ps : list QPoint) :
  last_pos a (p :: ps) = last_pos p ps.
Proof.
  unfold last_pos. revert a p. induction ps as [|q ps IH]; intros a p.
  - reflexivity.
  - change (last (p :: q :: ps) a) with (last (q :: ps) a).
    rewrite (IH a q), (IH p q). reflexivity.
Qed.

(** One step of the rectangle arithmetic: the edges the direction does
    not name stay, a named left or top edge moves by the delta. *)
Lemma rect_step_edges (d : string) (delta : QPoint) (minw minh : Z) (r : QRect) :
  In d directions ->
  (str_in "left" d = false ->
   QRect.left (_perform_resize_rect d delta minw minh r) = QRect.left r) /\
  (str_in "right" d = false ->
   QRect.right (_perform_resize_rect d delta minw minh r) = QRect.right r) /\
  (str_in "top" d = false ->
   QRect.top (_perform_resize_rect d delta minw minh r) = QRect.top r) /\
  (str_in "bottom" d = false ->
   QRect.bottom (_perform_resize_rect d delta minw minh r) = QRect.bottom r) /\
  (str_in "left" d = true ->
   QRect.left (_perform_resize_rect d delta minw minh r) = QRect.left r + px delta) /\
  (str_in "top" d = true ->
   QRect.top (_perform_resize_rect d delta minw minh r) = QRect.top r + py delta).
Proof.
  intros Hin. each_direction Hin; unfold _perform_resize_rect; cbn; qrect;
    repeat split; intros Hc; try discriminate Hc; reflexivity.
Qed.

(** X4: through a whole resize session the window's left edge stays
    where it was unless the direction names left, and its top edge
    unless the direction names top: dragging the right edge, the bottom
    edge or the bottom-right corner never moves the window's origin. *)
Theorem X4_unnamed_edges_stay (d : string) (ps : list QPoint) :
  In d directions ->
  forall (anchor : QPoint) (w : MainWindow),
  _resize_direction w = Some d ->
  _drag_pos w = Some anchor ->
  exists w1,
    resize_steps ps w = Done w1 /\
    (str_in "left" d = false ->
     QRect.left (geometry (base w1)) = QRect.left (geometry (base w))) /\
    (str_in "top" d = false ->
     QRect.top (geometry (base w1)) = QRect.top (geometry (base w))).
Proof.
  intros Hin. induction ps as [|p ps IH]; intros anchor w Hd Ha.
  - exists w. repeat split.
  - destruct (_perform_resize_step d anchor p w Hd Ha)
      as (w0 & Hstep & _ & Hg & Hd0 & Ha0 & _).
    destruct (IH p w0 Hd0 Ha0) as (w1 & Hrun & Hl & Ht).
    exists w1. split.
    + cbn [resize_steps]. rewrite Hstep. exact Hrun.
    + destruct (rect_step_edges d (QPoint_sub p anchor) (minimumWidth (base w))
                  (minimumHeight (base w)) (geometry (base w)) Hin)
        as (Sl & _ & St & _).
      destruct (constrained_facts (base w)
                  (_perform_resize_rect d (QPoint_sub p anchor)
                     (minimumWidth (base w)) (minimumHeight (base w))
                     (geometry (base w))))
        as (Cl & Ct & _ & _).
      split; intros Hc.
      * rewrite (Hl Hc), Hg, Cl. exact (Sl Hc).
      * rewrite (Ht Hc), Hg, Ct. exact (St Hc).
Qed.

Lemma X4_unnamed_edges_stay_witness :
  exists w1,
    resize_steps [mkQPoint 949 400; mkQPoint 0 0] pressed_right = Done w1 /\
    QRect.left (geometry (base w1)) = 100 /\
    QRect.top (geometry (base w1)) = 100.
Proof.
  destruct (X4_unnamed_edges_stay "right" [mkQPoint 949 400; mkQPoint 0 0]
              ltac:(cbn; tauto) (mkQPoint 899 400) pressed_right eq_refl eq_refl)
    as (w1 & Hrun & Hl & Ht).
  exists w1. split; [exact Hrun|].
  rewrite (Hl eq_refl), (Ht eq_refl). split; reflexivity.
Defined.

(** X5: the left and the top edge follow the cursor without any limit:
    after a whole session the window's left edge has moved by exactly
    the horizontal distance between the last cursor position and the
    press when the direction contains left, and its top edge by the
    vertical distance when it contains top.  Once the width is at the
    minimum a further drag of the left edge pushes the whole window. *)
Theorem X5_left_top_follow_cursor (d : string) (ps : list QPoint) :
  In d directions ->
  forall (anchor : QPoint) (w : MainWindow),
  _resize_direction w = Some d ->
  _drag_pos w = Some anchor ->
  exists w1,
    resize_steps ps w = Done w1 /\
    (str_in "left" d = true ->
     QRect.left (geometry (base w1)) =
     QRect.left (geometry (base w)) + (px (last_pos anchor ps) - px anchor)) /\
    (str_in "top" d = true ->
     QRect.top (geometry (base w1)) =
     QRect.top (geometry (base w)) + (py (last_pos anchor ps) - py anchor)).
Proof.
  intros Hin. induction ps as [|p ps IH]; intros anchor w Hd Ha.
  - exists w. split; [reflexivity|]. unfold last_pos; cbn. split; intros; lia.
  - destruct (_perform_resize_step d anchor p w Hd Ha)
      as (w0 & Hstep & _ & Hg & Hd0 & Ha0 & _).
    destruct (IH p w0 Hd0 Ha0) as (w1 & Hrun & Hl & Ht).
    exists w1. split.
    + cbn [resize_steps]. rewrite Hstep. exact Hrun.
    + destruct (rect_step_edges d (QPoint_sub p anchor) (minimumWidth (base w))
                  (minimumHeight (base w)) (geometry (base w)) Hin)
        as (_ & _ & _ & _ & Sl & St).
      destruct (constrained_facts (base w)
                  (_perform_resize_rect d (QPoint_sub p anchor)
                     (minimumWidth (base w)) (minimumHeight (base w))
                     (geometry (base w))))
        as (Cl & Ct & _ & _).
      rewrite last_pos_cons.
      split; intros Hc.
      * rewrite (Hl Hc), Hg, Cl, (Sl Hc). cbn [QPoint_sub px]. lia.
      * rewrite (Ht Hc), Hg, Ct, (St Hc). cbn [QPoint_sub py]. lia.
Qed.

Lemma X5_left_top_follow_cursor_witness :
  exists w1,
    resize_steps [mkQPoint 202 400; mkQPoint 1102 400] pressed_left = Done w1 /\
    QRect.left (geometry (base w1)) = 1100 /\
    geometry (base w1) = mkQRect 1100 100 1899 699.
Proof.
  destruct (X5_left_top_follow_cursor "left" [mkQPoint 202 400; mkQPoint 1102 400]
              ltac:(cbn; tauto) (mkQPoint 102 400) pressed_left eq_refl eq_refl)
    as (w1 & Hrun & Hl & _).
  exists w1. split; [exact Hrun|]. split.
  - rewrite (Hl eq_refl). reflexivity.
  - vm_compute in Hrun. injection Hrun as <-. reflexivity.
Defined.

(** X6: the clamp makes a drag of the right edge depend on its path.
    When the cursor first moves to a point where the sum is at or below
    the minimum width, the width is held at the minimum and the anchor
    still moves to the cursor, so the next move is measured from there:
    the width after the two moves is [max (minimum + (x2 - x1)) minimum],
    whatever the distance from the press was. *)
Theorem X6_right_drag_drifts (d : string) (anchor p1 p2 : QPoint) (w : MainWindow) :
  In d directions ->
  str_in "right" d = true ->
  _resize_direction w = Some d ->
  _drag_pos w = Some anchor ->
  QRect.width (geometry (base w)) + (px p1 - px anchor) <= minimumWidth (base w) ->
  exists w2,
    resize_steps [p1; p2] w = Done w2 /\
    QRect.width (geometry (base w2)) =
    Z.max (minimumWidth (base w) + (px p2 - px p1)) (minimumWidth (base w)).
Proof.
  intros Hin Hr Hd Ha Hle.
  destruct (_perform_resize_step d anchor p1 w Hd Ha)
    as (w1 & Hs1 & _ & Hg1 & Hd1 & Ha1 & Hmw1 & Hmh1).
  destruct (_perform_resize_step d p1 p2 w1 Hd1 Ha1)
    as (w2 & Hs2 & _ & Hg2 & _).
  exists w2. split.
  - cbn [resize_steps]. rewrite Hs1. cbn [bind]. rewrite Hs2. reflexivity.
  - destruct (constrained_facts (base w)
                (_perform_resize_rect d (QPoint_sub p1 anchor)
                   (minimumWidth (base w)) (minimumHeight (base w))
                   (geometry (base w))))
      as (_ & _ & Cw1 & _).
    destruct (constrained_facts (base w1)
                (_perform_resize_rect d (QPoint_sub p2 p1)
                   (minimumWidth (base w1)) (minimumHeight (base w1))
                   (geometry (base w1))))
      as (_ & _ & Cw2 & _).
    rewrite Hg2, Cw2, rect_width_right by assumption.
    rewrite Hg1, Cw1, rect_width_right by assumption.
    rewrite Hmw1. cbn [QPoint_sub px]. lia.
Qed.

Lemma X6_right_drag_drifts_witness :
  exists w2,
    resize_steps [mkQPoint 849 400; mkQPoint 899 400] pressed_right = Done w2 /\
    QRect.width (geometry (base w2)) = 850.
Proof.
  destruct (X6_right_drag_drifts "right" (mkQPoint 899 400) (mkQPoint 849 400)
              (mkQPoint 899 400) pressed_right)
    as (w2 & Hrun & Hw).
  - cbn. tauto.
  - reflexivity.
  - reflexivity.
  - reflexivity.
  - vm_compute. discriminate.
  - exists w2. split; [exact Hrun|]. rewrite Hw. reflexivity.
Defined.

(** ** Runs of events *)

(** A relation between the window before and after that is reflexive,
    transitive and kept by every admitted event is kept by every run of
    admitted events, whether the run returns or raises. *)
Lemma run_keeps (P : Event -> bool) (R : MainWindow -> MainWindow -> Prop) :
  (forall w, R w w) ->
  (forall a b c, R a b -> R b c -> R a c) ->
  (forall ev w, P ev = true -> R w (window_of (dispatch ev w))) ->
  forall evs w, forallb P evs = true -> R w (window_of (run evs w)).
Proof.
  intros Hrefl Htrans Hstep. induction evs as [|ev evs IH]; intros w Hall.
  - apply Hrefl.
  - cbn [forallb] in Hall. apply andb_prop in Hall as [Hev Hrest].
    cbn [run]. pose proof (Hstep ev w Hev) as H1.
    destruct (dispatch ev w) as [w1 | e w1]; cbn [bind window_of] in *.
    + exact (Htrans _ _ _ H1 (IH w1 Hrest)).
    + exact H1.
Qed.

Lemma emit_cases (s : Signal) (w : MainWindow) :
  emit s w = w \/ emit s w = closeParent w \/
  emit s w = showParentMaximized w \/ emit s w = showParentMinimized w \/
  emit s w = showParentFullScreen w.
Proof.
  destruct s; cbn; auto.
Qed.

Ltac title_move e w :=
  unfold CustomTitleBar_mouseMoveEvent;
  destruct (Qt.isMaximized (base w) || Qt.isFullScreen (base w));
  [ change (start (customTitleBar (restore_for_drag w)))
      with (start (customTitleBar w)) | ];
  destruct (start (customTitleBar w)).

Ltac window_move e w :=
  unfold MainWindow_mouseMoveEvent, _perform_resize;
  destruct (_resizing w && truthy (_resize_direction w));
  [ destruct (_drag_pos w); [ destruct (_resize_direction w) | ] | ].

Lemma moveTo_size (nx ny : Z) (r : QRect) :
  QRect.width (QRect.moveTo nx ny r) = QRect.width r /\
  QRect.height (QRect.moveTo nx ny r) = QRect.height r.
Proof.
  unfold QRect.moveTo, QRect.make, QRect.width, QRect.height. cbn. lia.
Qed.

(** X7: dragging the title bar of a normal window moves it by exactly
    the distance between the last cursor position and the press, and
    never changes its size: the incremental deltas add up. *)
Theorem X7_drag_follows_cursor (es : list QMouseEvent) :
  forall (anchor : QPoint) (w : MainWindow),
  Qt.isMaximized (base w) = false ->
  Qt.isFullScreen (base w) = false ->
  start (customTitleBar w) = Some anchor ->
  exists w1,
    run (map TitleMove es) w = Done w1 /\
    Qt.x (base w1) =
      Qt.x (base w) + (px (last_pos anchor (map globalPos es)) - px anchor) /\
    Qt.y (base w1) =
      Qt.y (base w) + (py (last_pos anchor (map globalPos es)) - py anchor) /\
    QRect.width (geometry (base w1)) = QRect.width (geometry (base w)) /\
    QRect.height (geometry (base w1)) = QRect.height (geometry (base w)).
Proof.
  induction es as [|e es IH]; intros anchor w Hm Hf Hs.
  - exists w. split; [reflexivity|]. unfold last_pos; cbn. repeat split; lia.
  - cbn [map run dispatch]. rewrite (titlebar_move_normal anchor e w Hm Hf Hs).
    cbn [bind].
    destruct (IH (globalPos e) (spec_drag_step anchor e w) Hm Hf eq_refl)
      as (w1 & Hrun & Hx & Hy & Hw & Hh).
    exists w1. split; [exact Hrun|].
    rewrite last_pos_cons.
    destruct (moveTo_size (Qt.x (base w) + (px (globalPos e) - px anchor))
                (Qt.y (base w) + (py (globalPos e) - py anchor))
                (geometry (base w))) as [Mw Mh].
    rewrite Hx, Hy, Hw, Hh.
    cbn [spec_drag_step with_titlebar with_base base geometry Qt.move].
    rewrite Mw, Mh.
    unfold Qt.move, Qt.x, Qt.y, QRect.left, QRect.top, QRect.moveTo, QRect.make.
    cbn [geometry x1 y1]. repeat split; lia.
Qed.

Lemma X7_drag_follows_cursor_witness :
  exists w1,
    run (map TitleMove [move_at 510 30; move_at 490 5])
        (CustomTitleBar_mousePressEvent (move_at 500 10) fresh_window) = Done w1 /\
    Qt.x (base w1) = 90 /\ Qt.y (base w1) = 95.
Proof.
  destruct (X7_drag_follows_cursor [move_at 510 30; move_at 490 5]
              (mkQPoint 500 10)
              (CustomTitleBar_mousePressEvent (move_at 500 10) fresh_window)
              eq_refl eq_refl eq_refl)
    as (w1 & Hrun & Hx & Hy & _).
  exists w1. split; [exact Hrun|]. rewrite Hx, Hy. split; reflexivity.
Defined.

(** Every event keeps the configuration. *)
Lemma dispatch_same_config (ev : Event) (w : MainWindow) :
  same_config w (window_of (dispatch ev w)).
Proof.
  unfold same_config. destruct ev as [e|e|e|e|e|s]; cbn [dispatch window_of].
  - repeat split.
  - title_move e w; repeat split.
  - unfold MainWindow_mousePressEvent.
    destruct (button e); try (repeat split; fail).
    match goal with |- context [if ?c then _ else _] => destruct c end;
      repeat split.
  - window_move e w; repeat split.
  - repeat split.
  - destruct (emit_cases s w) as [H|[H|[H|[H|H]]]]; rewrite H; try (repeat split; fail).
    + unfold showParentMaximized. destruct (Qt.isMaximized (base w)); repeat split.
    + unfold showParentFullScreen. destruct (Qt.isFullScreen (base w)); repeat split.
Qed.

(** X8: the edge margin and the minimum size are never changed: in
    every state reachable from a new window the margin is 8 and the
    minimum size 800 x 600. *)
Theorem X8_configuration_is_constant (w : MainWindow) :
  reachable w ->
  _edge_margin w = 8 /\
  minimumWidth (base w) = 800 /\
  minimumHeight (base w) = 600.
Proof.
  intros (g & evs & Hrun).
  assert (H : same_config (MainWindow_init g) (window_of (run evs (MainWindow_init g)))).
  { apply (run_keeps (fun _ => true)).
    - intros a. repeat split.
    - intros a b c (A1 & A2 & A3) (B1 & B2 & B3). unfold same_config.
      rewrite B1, B2, B3. repeat split; assumption.
    - intros ev a _. apply dispatch_same_config.
    - clear. induction evs; [reflexivity | assumption]. }
  rewrite Hrun in H. exact H.
Qed.

Lemma reachable_pressed_right : reachable pressed_right.
Proof.
  exists (QRect.make 100 100 800 600),
    [WindowPress (mkQMouseEvent LeftButton (mkQPoint 799 300) (mkQPoint 899 400))].
  reflexivity.
Defined.

Lemma X8_configuration_is_constant_witness :
  _edge_margin pressed_right = 8 /\
  minimumWidth (base pressed_right) = 800 /\
  minimumHeight (base pressed_right) = 600.
Proof.
  exact (X8_configuration_is_constant pressed_right reachable_pressed_right).
Defined.

Lemma hit_some_in_directions (W H M : Z) (pos : QPoint) (d : string) :
  _get_resize_direction W H M pos = Some d -> In d directions.
Proof.
  hit_cases pos W H M; intros Hd; try discriminate Hd;
    injection Hd as <-; unfold directions; cbn [In]; tauto.
Qed.

(** Every event that returns keeps a recorded direction well formed. *)
Lemma dispatch_session_ok (ev : Event) (w w1 : MainWindow) :
  session_ok w -> dispatch ev w = Done w1 -> session_ok w1.
Proof.
  intros Hok. destruct ev as [e|e|e|e|e|s]; cbn [dispatch].
  - intros H. injection H as <-. exact Hok.
  - title_move e w; intros H; try discriminate H; injection H as <-; exact Hok.
  - intros H. injection H as <-. unfold MainWindow_mousePressEvent.
    destruct (button e); try exact Hok.
    assert (Hnew : session_ok
              (set_resize_direction
                 (hit_test (set_drag_pos (Some (globalPos e)) w) (pos e))
                 (set_drag_pos (Some (globalPos e)) w))).
    { intros d Hd. cbn in Hd. split.
      - exact (hit_some_in_directions _ _ _ _ _ Hd).
      - eexists. reflexivity. }
    match goal with |- context [if ?c then _ else _] => destruct c end;
      exact Hnew.
  - unfold MainWindow_mouseMoveEvent.
    destruct (_resizing w && truthy (_resize_direction w)).
    + unfold _perform_resize.
      destruct (_drag_pos w) as [a|] eqn:Ha; [|discriminate].
      destruct (_resize_direction w) as [d|] eqn:Hd; [|discriminate].
      cbn [bind]. intros H. injection H as <-.
      intros d' Hd'. cbn in Hd'. rewrite Hd in Hd'. split.
      * injection Hd' as <-. exact (proj1 (Hok d Hd)).
      * eexists. reflexivity.
    + intros H. injection H as <-. exact Hok.
  - intros H. injection H as <-. intros d Hd. discriminate Hd.
  - intros H. injection H as <-.
    destruct (emit_cases s w) as [H|[H|[H|[H|H]]]]; rewrite H; try exact Hok.
    + unfold showParentMaximized. destruct (Qt.isMaximized (base w)); exact Hok.
    + unfold showParentFullScreen. destruct (Qt.isFullScreen (base w)); exact Hok.
Qed.

Lemma run_session_ok (evs : list Event) :
  forall w w1, session_ok w -> run evs w = Done w1 -> session_ok w1.
Proof.
  induction evs as [|ev evs IH]; intros w w1 Hok Hrun.
  - injection Hrun as <-. exact Hok.
  - cbn [run] in Hrun. destruct (dispatch ev w) as [w0 | e w0] eqn:Hd.
    + exact (IH w0 w1 (dispatch_session_ok ev w w0 Hok Hd) Hrun).
    + discriminate Hrun.
Qed.

(** X9: in every state reachable from a new window
    [MainWindow.mouseMoveEvent] returns: whenever the handler gets as far
    as [_perform_resize], the anchor and the direction it needs are
    there, so neither of its [TypeError]s can occur. *)
Theorem X9_window_move_never_raises (w : MainWindow) (event : QMouseEvent) :
  reachable w ->
  exists w1, MainWindow_mouseMoveEvent event w = Done w1.
Proof.
  intros (g & evs & Hrun).
  assert (Hok : session_ok w).
  { apply (run_session_ok evs (MainWindow_init g) w); [|exact Hrun].
    intros d Hd. discriminate Hd. }
  unfold MainWindow_mouseMoveEvent.
  destruct (_resizing w && truthy (_resize_direction w)) eqn:Hc.
  - apply andb_prop in Hc as [_ Ht].
    destruct (_resize_direction w) as [d|] eqn:Hd; [|discriminate Ht].
    destruct (Hok d Hd) as (_ & a & Ha).
    rewrite (_perform_resize_returns d a (globalPos event) w Hd Ha).
    eexists. reflexivity.
  - eexists. reflexivity.
Qed.

Lemma X9_window_move_never_raises_witness :
  exists w1,
    MainWindow_mouseMoveEvent
      (mkQMouseEvent LeftButton (mkQPoint 849 300) (mkQPoint 949 400))
      pressed_right = Done w1.
Proof.
  exact (X9_window_move_never_raises pressed_right
           (mkQMouseEvent LeftButton (mkQPoint 849 300) (mkQPoint 949 400))
           reachable_pressed_right).
Defined.

(** X10: the mouse handlers of the window never touch the title bar
    and never put the window into another state: after any run of
    presses, moves and releases on the window, returned or raised, the
    title bar's anchor and both icons and the minimized and visible
    flags are what they were, and the window is maximized or full screen
    only if it was before.  (An edge resize that changes the geometry
    does clear those two flags, through [setGeometry].) *)
Theorem X10_window_events_keep_chrome (evs : list Event) (w : MainWindow) :
  forallb is_window_event evs = true ->
  same_chrome w (window_of (run evs w)).
Proof.
  apply (run_keeps is_window_event same_chrome).
  - intros a. repeat split; intros H; exact H.
  - intros a b c (A1 & A2 & A3 & A4 & A5) (B1 & B2 & B3 & B4 & B5).
    unfold same_chrome. rewrite B1, B2, B3.
    repeat split; try assumption; intros H.
    + exact (A4 (B4 H)).
    + exact (A5 (B5 H)).
  - clear. intros ev w Hev. unfold same_chrome.
    destruct ev as [e|e|e|e|e|s]; try discriminate Hev; cbn [dispatch window_of].
    + unfold MainWindow_mousePressEvent.
      destruct (button e); try (repeat split; intros H; exact H).
      match goal with |- context [if ?c then _ else _] => destruct c end;
        repeat split; intros H; exact H.
    + window_move e w; cbn [bind window_of];
        try (repeat split; intros H; exact H; fail).
      cbv zeta.
      match goal with
      | |- context [Qt.setGeometry ?r] =>
          destruct (setGeometry_flags r (base w)) as [Fm Ff]
      end.
      repeat split; intros H; [exact (Fm H) | exact (Ff H)].
    + repeat split; intros H; exact H.
Qed.

Lemma X10_window_events_keep_chrome_witness :
  same_chrome (showParentMaximized fresh_window)
    (window_of
       (run [WindowPress (mkQMouseEvent LeftButton (mkQPoint 799 300) (mkQPoint 899 400));
             WindowMove (mkQMouseEvent LeftButton (mkQPoint 849 300) (mkQPoint 949 400));
             WindowRelease (mkQMouseEvent LeftButton (mkQPoint 849 300) (mkQPoint 949 400))]
            (showParentMaximized fresh_window))).
Proof.
  apply X10_window_events_keep_chrome. reflexivity.
Defined.

(** X11: the title bar and the buttons never touch a resize session:
    after any run of title-bar presses, title-bar moves and emitted
    signals, returned or raised, the window's anchor, resizing flag,
    direction and cursor are what they were. *)
Theorem X11_titlebar_events_keep_session (evs : list Event) (w : MainWindow) :
  forallb (fun ev => negb (is_window_event ev)) evs = true ->
  same_session w (window_of (run evs w)).
Proof.
  apply (run_keeps (fun ev => negb (is_window_event ev)) same_session).
  - intros a. repeat split.
  - intros a b c (A1 & A2 & A3 & A4) (B1 & B2 & B3 & B4).
    unfold same_session. rewrite B1, B2, B3, B4.
    repeat split; assumption.
  - clear. intros ev w Hev. unfold same_session.
    destruct ev as [e|e|e|e|e|s]; try discriminate Hev; cbn [dispatch window_of].
    + repeat split.
    + title_move e w; cbn [window_of]; repeat split.
    + destruct (emit_cases s w) as [H|[H|[H|[H|H]]]]; rewrite H;
        try (repeat split; fail).
      * unfold showParentMaximized. destruct (Qt.isMaximized (base w)); repeat split.
      * unfold showParentFullScreen. destruct (Qt.isFullScreen (base w)); repeat split.
Qed.

Lemma X11_titlebar_events_keep_session_witness :
  same_session pressed_right
    (window_of
       (run [Emit maximizeButton_clicked; TitlePress (move_at 500 10);
             TitleMove (move_at 510 30); Emit closeButton_clicked]
            pressed_right)).
Proof.
  apply X11_titlebar_events_keep_session. reflexivity.
Defined.

(** Window moves on a window whose move handler is idle change
    nothing, however many there are. *)
Lemma window_moves_idle (es : list QMouseEvent) (w : MainWindow) :
  _resizing w && truthy (_resize_direction w) = false ->
  run (map WindowMove es) w = Done w.
Proof.
  intros Hidle. induction es as [|e es IH]; [reflexivity|].
  cbn [map run dispatch]. rewrite (window_move_without_session e w Hidle).
  exact IH.
Qed.

(** X12: a left press away from every edge records the anchor but
    starts nothing: whatever moves follow on the window, the state stays
    the one right after the press, with the geometry, the cursor and the
    toolkit calls of before the press. *)
Theorem X12_interior_press_is_inert
  (event : QMouseEvent) (es : list QMouseEvent) (w : MainWindow) :
  button event = LeftButton ->
  hit_test w (pos event) = None ->
  run (WindowPress event :: map WindowMove es) w =
    Done (set_resize_direction None (set_drag_pos (Some (globalPos event)) w)) /\
  base (window_of (run (WindowPress event :: map WindowMove es) w)) = base w.
Proof.
  intros Hb Hn.
  assert (Hp : MainWindow_mousePressEvent event w =
               set_resize_direction None (set_drag_pos (Some (globalPos event)) w)).
  { unfold MainWindow_mousePressEvent. rewrite Hb.
    change (hit_test (set_drag_pos (Some (globalPos event)) w) (pos event))
      with (hit_test w (pos event)).
    rewrite Hn. reflexivity. }
  assert (Hrun : run (WindowPress event :: map WindowMove es) w =
                 Done (set_resize_direction None
                         (set_drag_pos (Some (globalPos event)) w))).
  { cbn [run dispatch bind]. rewrite Hp. apply window_moves_idle.
    cbn. apply andb_false_r. }
  split; [exact Hrun|]. rewrite Hrun. reflexivity.
Qed.

Lemma X12_interior_press_is_inert_witness :
  base (window_of
          (run (WindowPress (mkQMouseEvent LeftButton (mkQPoint 400 300) (mkQPoint 500 400))
                :: map WindowMove [move_at 600 400; move_at 0 0])
               fresh_window)) = base fresh_window.
Proof.
  apply (X12_interior_press_is_inert
           (mkQMouseEvent LeftButton (mkQPoint 400 300) (mkQPoint 500 400))
           [move_at 600 400; move_at 0 0] fresh_window); reflexivity.
Defined.

(** X13: two clicks on the maximize button of a window that is not
    maximized, or two on the full-screen button of a window that is not
    full screen, end in a window that is neither, with both icons plain;
    the toolkit calls are the entering call followed by [showNormal]. *)
Theorem X13_toggle_twice_is_normal (w : MainWindow) :
  (Qt.isMaximized (base w) = false ->
   exists w2,
     run [Emit maximizeButton_clicked; Emit maximizeButton_clicked] w = Done w2 /\
     Qt.isMaximized (base w2) = false /\ Qt.isFullScreen (base w2) = false /\
     maximize_icon_active w2 = false /\ fullscreen_icon_active w2 = false /\
     calls (base w2) = (calls (base w) ++ [CallShowMaximized; CallShowNormal])%list) /\
  (Qt.isFullScreen (base w) = false ->
   exists w2,
     run [Emit fullScreenButton_clicked; Emit fullScreenButton_clicked] w = Done w2 /\
     Qt.isMaximized (base w2) = false /\ Qt.isFullScreen (base w2) = false /\
     maximize_icon_active w2 = false /\ fullscreen_icon_active w2 = false /\
     calls (base w2) = (calls (base w) ++ [CallShowFullScreen; CallShowNormal])%list).
Proof.
  split; intros H; eexists; (split; [reflexivity|]).
  - change (emit maximizeButton_clicked) with showParentMaximized.
    assert (E : showParentMaximized w =
                with_base Qt.showMaximized
                  (with_titlebar (set_maximize_icon "normal-button-icon-white.png") w))
      by (unfold showParentMaximized; rewrite H; reflexivity).
    rewrite E. cbn. rewrite <- app_assoc. repeat split.
  - change (emit fullScreenButton_clicked) with showParentFullScreen.
    assert (E : showParentFullScreen w =
                with_base Qt.showFullScreen
                  (with_titlebar
                     (set_fullscreen_icon "end-fullscreen-button-icon-white.png") w))
      by (unfold showParentFullScreen; rewrite H; reflexivity).
    rewrite E. cbn. rewrite <- app_assoc. repeat split.
Qed.

Lemma X13_toggle_twice_is_normal_witness :
  exists w2,
    run [Emit maximizeButton_clicked; Emit maximizeButton_clicked] fresh_window
      = Done w2 /\
    Qt.isMaximized (base w2) = false.
Proof.
  destruct (proj1 (X13_toggle_twice_is_normal fresh_window) eq_refl)
    as (w2 & Hrun & Hm & _).
  exists w2. split; assumption.
Defined.

(** The icon files once a button has been toggled. *)
Lemma toggled_icons (w : MainWindow) :
  maximizeButton_icon (customTitleBar (showParentMaximized w)) <> maximize_icon_initial /\
  fullScreenButton_icon (customTitleBar (showParentFullScreen w)) <> fullscreen_icon_initial.
Proof.
  unfold showParentMaximized, showParentFullScreen.
  destruct (Qt.isMaximized (base w)), (Qt.isFullScreen (base w));
    split; cbn; discriminate.
Qed.

(** No event gives a button back the icon file it was created with. *)
Lemma dispatch_icons_stay_changed (ev : Event) (w : MainWindow) :
  (maximizeButton_icon (customTitleBar w) <> maximize_icon_initial ->
   maximizeButton_icon (customTitleBar (window_of (dispatch ev w)))
     <> maximize_icon_initial) /\
  (fullScreenButton_icon (customTitleBar w) <> fullscreen_icon_initial ->
   fullScreenButton_icon (customTitleBar (window_of (dispatch ev w)))
     <> fullscreen_icon_initial).
Proof.
  destruct ev as [e|e|e|e|e|s]; cbn [dispatch window_of].
  - split; intros H; exact H.
  - title_move e w; cbn [window_of]; split; intros H;
      cbn; try exact H; discriminate.
  - unfold MainWindow_mousePressEvent. destruct (button e);
      try (split; intros H; exact H).
    match goal with |- context [if ?c then _ else _] => destruct c end;
      split; intros H; exact H.
  - window_move e w; cbn [bind window_of]; split; intros H; exact H.
  - split; intros H; exact H.
  - destruct (emit_cases s w) as [H|[H|[H|[H|H]]]]; rewrite H;
      try (split; intros H0; exact H0).
    + unfold showParentMaximized. destruct (Qt.isMaximized (base w));
        split; intros H0; cbn; try exact H0; discriminate.
    + unfold showParentFullScreen. destruct (Qt.isFullScreen (base w));
        split; intros H0; cbn; try exact H0; discriminate.
Qed.

(** X14: once the maximize button has been clicked, its icon is never
    again the file the button was created with, whatever events follow;
    the same holds for the full-screen button.  Every icon the handlers
    set is a bare file name, without the [Images] directory of the
    files set at construction. *)
Theorem X14_created_icon_never_returns (evs : list Event) (w : MainWindow) :
  maximizeButton_icon
    (customTitleBar (window_of (run (Emit maximizeButton_clicked :: evs) w)))
    <> maximize_icon_initial /\
  fullScreenButton_icon
    (customTitleBar (window_of (run (Emit fullScreenButton_clicked :: evs) w)))
    <> fullscreen_icon_initial.
Proof.
  assert (Hkeep : forall w0,
    (maximizeButton_icon (customTitleBar w0) <> maximize_icon_initial ->
     maximizeButton_icon (customTitleBar (window_of (run evs w0)))
       <> maximize_icon_initial) /\
    (fullScreenButton_icon (customTitleBar w0) <> fullscreen_icon_initial ->
     fullScreenButton_icon (customTitleBar (window_of (run evs w0)))
       <> fullscreen_icon_initial)).
  { intros w0.
    apply (run_keeps (fun _ => true)
             (fun a b =>
                (maximizeButton_icon (customTitleBar a) <> maximize_icon_initial ->
                 maximizeButton_icon (customTitleBar b) <> maximize_icon_initial) /\
                (fullScreenButton_icon (customTitleBar a) <> fullscreen_icon_initial ->
                 fullScreenButton_icon (customTitleBar b) <> fullscreen_icon_initial))).
    - intros a. split; intros H; exact H.
    - intros a b c [A1 A2] [B1 B2]. split; intros H.
      + exact (B1 (A1 H)).
      + exact (B2 (A2 H)).
    - intros ev a _. apply dispatch_icons_stay_changed.
    - clear. induction evs; [reflexivity | assumption]. }
  cbn [run dispatch bind].
  destruct (toggled_icons w) as [Tm Tf]. split.
  - change (emit maximizeButton_clicked w) with (showParentMaximized w).
    exact (proj1 (Hkeep _) Tm).
  - change (emit fullScreenButton_clicked w) with (showParentFullScreen w).
    exact (proj2 (Hkeep _) Tf).
Qed.

(** Every event keeps the icons in step with the window state, also
    when its handler raises. *)
Lemma dispatch_icons_follow_state (ev : Event) (w : MainWindow) :
  icons_follow_state w -> icons_follow_state (window_of (dispatch ev w)).
Proof.
  intros Hinv. destruct ev as [e|e|e|e|e|s]; cbn [dispatch window_of].
  - exact Hinv.
  - title_move e w; cbn [window_of]; try exact Hinv;
      unfold icons_follow_state; cbn; split; intros; discriminate.
  - unfold MainWindow_mousePressEvent. destruct (button e); try exact Hinv.
    match goal with |- context [if ?c then _ else _] => destruct c end;
      exact Hinv.
  - window_move e w; cbn [bind window_of]; try exact Hinv.
    destruct Hinv as [Hm Hf].
    cbv zeta.
    match goal with
    | |- context [Qt.setGeometry ?r] =>
        destruct (setGeometry_flags r (base w)) as [Fm Ff]
    end.
    split; intros H.
    + exact (Hm (Fm H)).
    + exact (Hf (Ff H)).
  - exact Hinv.
  - destruct (emit_cases s w) as [H|[H|[H|[H|H]]]]; rewrite H; try exact Hinv.
    + unfold showParentMaximized. destruct (Qt.isMaximized (base w));
        unfold icons_follow_state; cbn; split; intros;
        discriminate || reflexivity.
    + unfold showParentFullScreen. destruct (Qt.isFullScreen (base w));
        unfold icons_follow_state; cbn; split; intros;
        discriminate || reflexivity.
Qed.

(** X16: in every state reachable from a new window the icons follow
    the window state in this direction: a maximized window shows the
    active maximize icon and a full-screen window shows the active
    full-screen icon.  (The converse fails: an icon can stay active on
    a window that has left the state.) *)
Theorem X16_icons_follow_state (w : MainWindow) :
  reachable w -> icons_follow_state w.
Proof.
  intros (g & evs & Hrun).
  assert (H : icons_follow_state (MainWindow_init g) ->
              icons_follow_state (window_of (run evs (MainWindow_init g)))).
  { apply (run_keeps (fun _ => true)
             (fun a b => icons_follow_state a -> icons_follow_state b)).
    - intros a Ha. exact Ha.
    - intros a b c Hab Hbc Ha. exact (Hbc (Hab Ha)).
    - intros ev a _. apply dispatch_icons_follow_state.
    - clear. induction evs; [reflexivity | assumption]. }
  rewrite Hrun in H. apply H.
  unfold icons_follow_state. cbn. split; intros; discriminate.
Qed.

Lemma X16_icons_follow_state_witness :
  icons_follow_state (showParentFullScreen (showParentMaximized fresh_window)).
Proof.
  apply X16_icons_follow_state.
  exists (QRect.make 100 100 800 600),
    [Emit maximizeButton_clicked; Emit fullScreenButton_clicked].
  reflexivity.
Defined.

(** With a well-formed session and a title-bar anchor, every event
    returns and keeps both. *)
Lemma dispatch_returns (ev : Event) (w : MainWindow) :
  session_ok w ->
  (exists a, start (customTitleBar w) = Some a) ->
  exists w1,
    dispatch ev w = Done w1 /\ session_ok w1 /\
    exists a, start (customTitleBar w1) = Some a.
Proof.
  intros Hok [a Ha].
  assert (Hdone : exists w1, dispatch ev w = Done w1 /\
                             exists a1, start (customTitleBar w1) = Some a1).
  { destruct ev as [e|e|e|e|e|s]; cbn [dispatch].
    - eexists. split; [reflexivity|]. eexists. reflexivity.
    - unfold CustomTitleBar_mouseMoveEvent.
      destruct (Qt.isMaximized (base w) || Qt.isFullScreen (base w)).
      + change (start (customTitleBar (restore_for_drag w)))
          with (start (customTitleBar w)).
        rewrite Ha. eexists. split; [reflexivity|]. eexists. reflexivity.
      + rewrite Ha. eexists. split; [reflexivity|]. eexists. reflexivity.
    - eexists. split; [reflexivity|]. exists a.
      unfold MainWindow_mousePressEvent. destruct (button e); try exact Ha.
      match goal with |- context [if ?c then _ else _] => destruct c end;
        exact Ha.
    - unfold MainWindow_mouseMoveEvent.
      destruct (_resizing w && truthy (_resize_direction w)) eqn:Hc.
      + apply andb_prop in Hc as [_ Ht].
        destruct (_resize_direction w) as [d|] eqn:Hd; [|discriminate Ht].
        destruct (Hok d Hd) as (_ & p & Hp).
        rewrite (_perform_resize_returns d p (globalPos e) w Hd Hp).
        eexists. split; [reflexivity|]. exists a. exact Ha.
      + eexists. split; [reflexivity|]. exists a. exact Ha.
    - eexists. split; [reflexivity|]. exists a. exact Ha.
    - eexists. split; [reflexivity|]. exists a.
      destruct (emit_cases s w) as [H|[H|[H|[H|H]]]]; rewrite H; try exact Ha.
      + unfold showParentMaximized. destruct (Qt.isMaximized (base w)); exact Ha.
      + unfold showParentFullScreen. destruct (Qt.isFullScreen (base w)); exact Ha. }
  destruct Hdone as (w1 & Hd & Hs).
  exists w1. split; [exact Hd|]. split; [|exact Hs].
  exact (dispatch_session_ok ev w w1 Hok Hd).
Qed.

Lemma run_returns (evs : list Event) :
  forall w, session_ok w ->
  (exists a, start (customTitleBar w) = Some a) ->
  exists w1, run evs w = Done w1.
Proof.
  induction evs as [|ev evs IH]; intros w Hok Hs.
  - exists w. reflexivity.
  - destruct (dispatch_returns ev w Hok Hs) as (w0 & Hd & Hok0 & Hs0).
    cbn [run]. rewrite Hd. cbn [bind]. exact (IH w0 Hok0 Hs0).
Qed.

(** X17: a title-bar move before the first title-bar press is the only
    way any handler can raise: from a state reachable from a new window,
    once the title bar has been pressed every run of events returns,
    whatever events it consists of. *)
Theorem X17_no_raise_after_title_press
  (w : MainWindow) (event : QMouseEvent) (evs : list Event) :
  reachable w ->
  exists w1, run (TitlePress event :: evs) w = Done w1.
Proof.
  intros (g & evs0 & Hrun).
  assert (Hok : session_ok w).
  { apply (run_session_ok evs0 (MainWindow_init g) w); [|exact Hrun].
    intros d Hd. discriminate Hd. }
  cbn [run dispatch bind]. apply run_returns.
  - exact Hok.
  - eexists. reflexivity.
Qed.

Lemma X17_no_raise_after_title_press_witness :
  exists w1,
    run (TitlePress (move_at 500 10)
         :: [TitleMove (move_at 510 30); Emit maximizeButton_clicked;
             TitleMove (move_at 520 40);
             WindowMove (move_at 530 50)]) pressed_right = Done w1.
Proof.
  exact (X17_no_raise_after_title_press pressed_right (move_at 500 10)
           [TitleMove (move_at 510 30); Emit maximizeButton_clicked;
            TitleMove (move_at 520 40); WindowMove (move_at 530 50)]
           reachable_pressed_right).
Defined.
